(** * lv_linearscale: the linear scale widget of LVGL

    A shallow embedding of [src/lv_widgets/lv_linearscale.c] and
    [lv_linearscale.h]: the widget's extended data, its setters and getters
    with the redraw requests they issue, and the render pass
    [lv_linearscale_draw_scale] with the C integer arithmetic written out. *)

From Stdlib Require Import ZArith List Lia Bool.
From Stdlib Require String.
Import ListNotations.
Local Open Scope Z_scope.

(** ** C integers

    [int] and [int32_t] are 32 bits wide.  Signed overflow and division by
    zero are undefined behaviour in C: the embedding stops with a [Fault]
    there.  A conversion to a narrower signed type ([int16_t], [lv_coord_t])
    keeps the low bits, as every two's complement target does. *)
Module CInt.

Inductive fault : Type :=
| DivisionByZero    (* the right operand of [/] is zero *)
| RemainderByZero   (* the right operand of [%] is zero *)
| SignedOverflow.   (* an [int] result that does not fit in 32 bits *)

Inductive outcome (A : Type) : Type :=
| Ok (a : A)
| Fault (f : fault).
Arguments Ok {A} a.
Arguments Fault {A} f.

Definition bind {A B : Type} (m : outcome A) (k : A -> outcome B) : outcome B :=
  match m with
  | Ok a => k a
  | Fault f => Fault f
  end.

Definition INT_MIN : Z := - 2147483648.
Definition INT_MAX : Z := 2147483647.

Definition in_int (x : Z) : Prop := INT_MIN <= x <= INT_MAX.
Definition in_intb (x : Z) : bool := (INT_MIN <=? x) && (x <=? INT_MAX).

Definition int_chk (x : Z) : outcome Z :=
  if in_intb x then Ok x else Fault SignedOverflow.

Definition int_sub (a b : Z) : outcome Z := int_chk (a - b).
Definition int_add (a b : Z) : outcome Z := int_chk (a + b).
Definition int_mul (a b : Z) : outcome Z := int_chk (a * b).

(** C's [/] truncates toward zero. *)
Definition int_div (a b : Z) : outcome Z :=
  if b =? 0 then Fault DivisionByZero else int_chk (Z.quot a b).

(** C's [%] has the sign of the dividend. *)
Definition int_rem (a b : Z) : outcome Z :=
  if b =? 0 then Fault RemainderByZero
  else if in_intb (Z.quot a b) then Ok (Z.rem a b) else Fault SignedOverflow.

(** Conversion to a signed type of [w] bits. *)
Definition wrap_signed (w : Z) (x : Z) : Z :=
  (x + 2 ^ (w - 1)) mod 2 ^ w - 2 ^ (w - 1).

Definition to_int16 (x : Z) : Z := wrap_signed 16 x.
Definition to_uint8 (x : Z) : Z := x mod 256.

Definition in_int16 (x : Z) : Prop := - 32768 <= x <= 32767.

End CInt.
Export CInt.

Notation "x <- m ;; k" := (bind m (fun x => k))
  (at level 61, m at next level, right associativity).

(** ** Data model *)

(** The anonymous enum of [lv_linearscale.h]; [lv_linearscale_align_t] is a
    [uint8_t], so any byte can be stored. *)
Definition lv_linearscale_align_t : Type := Z.
Definition LV_LINEARSCALE_ALIGN_TOP : lv_linearscale_align_t := 0.
Definition LV_LINEARSCALE_ALIGN_BOT : lv_linearscale_align_t := 1.
Definition LV_LINEARSCALE_ALIGN_LEFT : lv_linearscale_align_t := 2.
Definition LV_LINEARSCALE_ALIGN_RIGHT : lv_linearscale_align_t := 3.

(** The formatter writes the text of a value into the caller's buffer; it is
    kept as the function from the value to that text. *)
Definition lv_linearscale_format_cb_t : Type := Z -> String.string.

Record lv_linearscale_ext_t : Type := mk_ext {
  line_cnt : Z;     (* uint16_t *)
  label_cnt : Z;    (* uint16_t *)
  cur_value : Z;    (* int32_t *)
  min_value : Z;    (* int32_t *)
  max_value : Z;    (* int32_t *)
  align : lv_linearscale_align_t;
  format_cb : option lv_linearscale_format_cb_t
}.

Record lv_area_t : Type := mk_area { x1 : Z; y1 : Z; x2 : Z; y2 : Z }.
Record lv_point_t : Type := mk_point { px : Z; py : Z }.

(** Modelled from the spec: [lv_color_t] is declared in lv_misc/lv_color.h,
    outside the two widget files; the spec speaks of colours that are
    blended linearly, taken here as three unsigned channels. *)
Record lv_color_t : Type := mk_color { ch_red : Z; ch_green : Z; ch_blue : Z }.

Record lv_draw_line_dsc_t : Type := mk_line_dsc {
  dsc_color : lv_color_t;
  dsc_width : Z;
  dsc_raw_end : Z
}.

(** What the style and text providers answer during one render pass: the
    four paddings of the main part, the scale properties of the drawn part,
    the line descriptor as [lv_obj_init_draw_line_dsc] fills it, the default
    number-to-text conversion and the text measurement. *)
Record lv_style_t : Type := mk_style {
  pad_left : Z;
  pad_right : Z;
  pad_top : Z;
  pad_bottom : Z;
  scale_width : Z;
  line_color : lv_color_t;
  scale_grad_color : lv_color_t;
  scale_end_color : lv_color_t;
  scale_end_line_width : Z;
  init_line_dsc : lv_draw_line_dsc_t;
  num_to_str : Z -> String.string;
  txt_get_size : String.string -> lv_point_t
}.

(** The object: its coordinates, its style, the extended data, and the
    number of redraw requests ([lv_obj_invalidate]) issued on it so far. *)
Record lv_obj_t : Type := mk_obj {
  coords : lv_area_t;
  style : lv_style_t;
  ext : lv_linearscale_ext_t;
  invalidations : nat
}.

Definition lv_obj_invalidate (o : lv_obj_t) : lv_obj_t :=
  mk_obj (coords o) (style o) (ext o) (S (invalidations o)).

Definition with_ext (o : lv_obj_t) (e : lv_linearscale_ext_t) : lv_obj_t :=
  mk_obj (coords o) (style o) e (invalidations o).

Definition set_cur_value (e : lv_linearscale_ext_t) (v : Z) : lv_linearscale_ext_t :=
  mk_ext (line_cnt e) (label_cnt e) v (min_value e) (max_value e) (align e) (format_cb e).

Definition set_min_value (e : lv_linearscale_ext_t) (v : Z) : lv_linearscale_ext_t :=
  mk_ext (line_cnt e) (label_cnt e) (cur_value e) v (max_value e) (align e) (format_cb e).

Definition set_max_value (e : lv_linearscale_ext_t) (v : Z) : lv_linearscale_ext_t :=
  mk_ext (line_cnt e) (label_cnt e) (cur_value e) (min_value e) v (align e) (format_cb e).

(** ** Creation *)

Definition default_ext : lv_linearscale_ext_t :=
  mk_ext 26 6 0 0 100 LV_LINEARSCALE_ALIGN_LEFT None.

(** The extended data as creation leaves it: the defaults, or with a [copy]
    its seven fields.  The calls into the object framework around it
    ([lv_obj_create], [lv_obj_set_size], [lv_theme_apply],
    [lv_obj_refresh_style]) are defined outside the two widget files and
    write the coordinates, the style and the redraw requests, never the
    extended data: [linearscale] stands for the object with the
    coordinates, style and redraw count those calls leave, which the
    function does not determine. *)
Definition lv_linearscale_create (linearscale : lv_obj_t) (copy : option lv_obj_t) : lv_obj_t :=
  match copy with
  | None => with_ext linearscale default_ext
  | Some c =>
      let copy_ext := ext c in
      with_ext linearscale
        (mk_ext (line_cnt copy_ext) (label_cnt copy_ext) (cur_value copy_ext)
                (min_value copy_ext) (max_value copy_ext) (align copy_ext)
                (format_cb copy_ext))
  end.

(** ** Setters *)

Definition lv_linearscale_set_value (lscale : lv_obj_t) (value : Z) : lv_obj_t :=
  let e := ext lscale in
  if cur_value e =? value then lscale
  else
    let e1 := set_cur_value e (if value >? max_value e then max_value e else value) in
    let e2 := set_cur_value e1 (if cur_value e1 <? min_value e1 then min_value e1 else cur_value e1) in
    lv_obj_invalidate (with_ext lscale e2).

Definition lv_linearscale_set_range (lscale : lv_obj_t) (min max : Z) : lv_obj_t :=
  let e := ext lscale in
  if (min_value e =? min) && (max_value e =? max) then lscale
  else
    let o1 := with_ext lscale (set_min_value (set_max_value e max) min) in
    let o2 :=
      if cur_value (ext o1) >? max then
        let o := with_ext o1 (set_cur_value (ext o1) max) in
        lv_linearscale_set_value o (cur_value (ext o))
      else o1 in
    let o3 :=
      if cur_value (ext o2) <? min then
        let o := with_ext o2 (set_cur_value (ext o2) min) in
        lv_linearscale_set_value o (cur_value (ext o))
      else o2 in
    lv_obj_invalidate o3.

Definition lv_linearscale_set_scale (lscale : lv_obj_t) (line_cnt' label_cnt' : Z) : lv_obj_t :=
  if line_cnt' =? 0 then lscale
  else
    let e := ext lscale in
    if (line_cnt e =? line_cnt') && (label_cnt e =? label_cnt') then lscale
    else
      lv_obj_invalidate
        (with_ext lscale
           (mk_ext line_cnt' label_cnt' (cur_value e) (min_value e) (max_value e)
                   (align e) (format_cb e))).

Definition lv_linearscale_set_alignment (lscale : lv_obj_t) (dir : lv_linearscale_align_t) : lv_obj_t :=
  let e := ext lscale in
  if align e =? dir then lscale
  else
    lv_obj_invalidate
      (with_ext lscale
         (mk_ext (line_cnt e) (label_cnt e) (cur_value e) (min_value e) (max_value e)
                 dir (format_cb e))).

Definition lv_linearscale_set_formatter_cb (lscale : lv_obj_t)
    (cb : option lv_linearscale_format_cb_t) : lv_obj_t :=
  let e := ext lscale in
  with_ext lscale
    (mk_ext (line_cnt e) (label_cnt e) (cur_value e) (min_value e) (max_value e)
            (align e) cb).

(** ** Getters *)

Definition lv_linearscale_get_value (lscale : lv_obj_t) : Z := cur_value (ext lscale).
Definition lv_linearscale_get_min_value (lscale : lv_obj_t) : Z := min_value (ext lscale).
Definition lv_linearscale_get_max_value (lscale : lv_obj_t) : Z := max_value (ext lscale).
Definition lv_linearscale_get_line_count (lscale : lv_obj_t) : Z := line_cnt (ext lscale).
Definition lv_linearscale_get_label_count (lscale : lv_obj_t) : Z := label_cnt (ext lscale).

(** ** Geometry and colour helpers of the library *)

(** Modelled from the spec: [lv_area_get_width], [lv_area_get_height]
    (lv_misc/lv_area.h) and [lv_obj_get_width], [lv_obj_get_height]
    (lv_core/lv_obj.h) are declared outside the two widget files, as are
    [lv_coord_t] and [lv_style_int_t], both [int16_t]; the spec speaks of
    the width and height of a rectangle of pixels, which for the inclusive
    corner coordinates of [lv_area_t] is the number of pixels on a side. *)
Definition lv_area_get_width (a : lv_area_t) : Z := to_int16 (x2 a - x1 a + 1).
Definition lv_area_get_height (a : lv_area_t) : Z := to_int16 (y2 a - y1 a + 1).
Definition lv_obj_get_width (o : lv_obj_t) : Z := lv_area_get_width (coords o).
Definition lv_obj_get_height (o : lv_obj_t) : Z := lv_area_get_height (coords o).

(** Modelled from the spec: [lv_color_mix] (lv_misc/lv_color.h) is declared
    outside the two widget files; the spec describes the call
    [lv_color_mix(grad_color, main_color, mix)] as the linear blend of the
    first colour toward the second with fraction [mix / 255], where 0 is the
    pure first colour. *)
Definition mix_channel (c1 c2 mix : Z) : Z := (c1 * (255 - mix) + c2 * mix) / 255.

Definition lv_color_mix (c1 c2 : lv_color_t) (mix : Z) : lv_color_t :=
  mk_color (mix_channel (ch_red c1) (ch_red c2) mix)
           (mix_channel (ch_green c1) (ch_green c2) mix)
           (mix_channel (ch_blue c1) (ch_blue c2) mix).

(** ** The render pass *)

Record lv_label_draw_t : Type := mk_label_draw {
  scale_act : Z;           (* the value handed to the formatter *)
  scale_txt : String.string;
  label_cord : lv_area_t
}.

(** What one turn of the tick loop draws: the line, and the label of a major
    tick. *)
Record lv_tick_draw_t : Type := mk_tick_draw {
  tick_minor : bool;
  tick_width : Z;          (* the local [tick_width] of the turn *)
  tick_p1 : lv_point_t;
  tick_p2 : lv_point_t;
  tick_line_dsc : lv_draw_line_dsc_t;
  tick_label : option lv_label_draw_t
}.

(** The indicator area: the coordinates less the paddings, each sum stored
    back into an [lv_coord_t]. *)
Definition indic_area_of (lscale : lv_obj_t) : lv_area_t :=
  let c := coords lscale in
  let st := style lscale in
  mk_area (to_int16 (x1 c + pad_left st)) (to_int16 (y1 c + pad_top st))
          (to_int16 (x2 c - pad_right st)) (to_int16 (y2 c - pad_bottom st)).

(** [int16_t level = (int32_t)((int32_t)(cur - min) * line_cnt) / (max - min)] *)
Definition scale_level (e : lv_linearscale_ext_t) : outcome Z :=
  d <- int_sub (cur_value e) (min_value e) ;;
  m <- int_mul d (line_cnt e) ;;
  r <- int_sub (max_value e) (min_value e) ;;
  q <- int_div m r ;;
  Ok (to_int16 q).

(** [int16_t label_counter]; the operands are [uint16_t] promoted to [int],
    so the quotient cannot overflow. *)
Definition scale_label_counter (e : lv_linearscale_ext_t) : Z :=
  if label_cnt e >? 1 then to_int16 (Z.quot (line_cnt e) (label_cnt e - 1)) else 0.

(** [(100 * length * i / (line_cnt - 1)) / 100] in [int]. *)
Definition tick_offset (e : lv_linearscale_ext_t) (length i : Z) : outcome Z :=
  a <- int_mul 100 length ;;
  b <- int_mul a i ;;
  c <- int_div b (line_cnt e - 1) ;;
  int_div c 100.

(** The two end points of tick [i]. *)
Definition tick_points (e : lv_linearscale_ext_t) (indic_area : lv_area_t) (hor : bool)
    (tick_width i : Z) : outcome (lv_point_t * lv_point_t) :=
  if hor then
    let width := x2 indic_area - x1 indic_area in
    x <- tick_offset e width i ;;
    let p1x := to_int16 (x1 indic_area + x) in
    if align e =? LV_LINEARSCALE_ALIGN_TOP then
      Ok (mk_point p1x (y1 indic_area),
          mk_point p1x (to_int16 (y1 indic_area + tick_width)))
    else
      Ok (mk_point p1x (to_int16 (y2 indic_area - tick_width)),
          mk_point p1x (y2 indic_area))
  else
    let height := y2 indic_area - y1 indic_area in
    y <- tick_offset e height i ;;
    let p1y := to_int16 (y2 indic_area - y) in
    if align e =? LV_LINEARSCALE_ALIGN_LEFT then
      Ok (mk_point (x1 indic_area) p1y,
          mk_point (to_int16 (x1 indic_area + tick_width)) p1y)
    else
      Ok (mk_point (to_int16 (x2 indic_area - tick_width)) p1y,
          mk_point (x2 indic_area) p1y).

(** The line descriptor of tick [i]: beyond the level the end colour and the
    end width are stored; below it only the colour is replaced.  [255 * i]
    and its quotient stay within [int] for a [uint16_t] index, and the
    quotient is passed as a [uint8_t]. *)
Definition tick_line (e : lv_linearscale_ext_t) (st : lv_style_t) (level i : Z)
    (line_dsc : lv_draw_line_dsc_t) : lv_draw_line_dsc_t :=
  if i >=? level then
    mk_line_dsc (scale_end_color st) (scale_end_line_width st) (dsc_raw_end line_dsc)
  else
    mk_line_dsc
      (lv_color_mix (scale_grad_color st) (line_color st)
                    (to_uint8 (Z.quot (255 * i) (line_cnt e))))
      (dsc_width line_dsc) (dsc_raw_end line_dsc).

(** The value a major tick is labelled with. *)
Definition label_value (e : lv_linearscale_ext_t) (i : Z) : outcome Z :=
  r <- int_sub (max_value e) (min_value e) ;;
  a <- int_mul r i ;;
  b <- int_div a (line_cnt e - 1) ;;
  int_add b (min_value e).

(** Where the label of a major tick goes. *)
Definition label_area (e : lv_linearscale_ext_t) (st : lv_style_t) (hor : bool)
    (tick_width : Z) (p1 p2 label_size : lv_point_t) : lv_area_t :=
  let '(cx1, cy1) :=
    if hor then
      if align e =? LV_LINEARSCALE_ALIGN_TOP then
        (to_int16 (px p1 - Z.quot (px label_size) 2), to_int16 (py p2 + pad_bottom st))
      else
        (to_int16 (px p1 - Z.quot (px label_size) 2),
         to_int16 (py p1 - tick_width - Z.quot (py label_size) 8))
    else
      if align e =? LV_LINEARSCALE_ALIGN_LEFT then
        (px p2, to_int16 (py p1 - Z.quot (py label_size) 2))
      else
        (to_int16 (px p1 - px label_size), to_int16 (py p1 - Z.quot (py label_size) 2)) in
  mk_area cx1 cy1 (to_int16 (cx1 + px label_size)) (to_int16 (cy1 + py label_size)).

Definition tick_label_of (e : lv_linearscale_ext_t) (st : lv_style_t) (hor minor : bool)
    (tick_width i : Z) (p1 p2 : lv_point_t) : outcome (option lv_label_draw_t) :=
  if minor then Ok None
  else
    v <- label_value e i ;;
    let txt := match format_cb e with
               | None => num_to_str st v
               | Some cb => cb v
               end in
    Ok (Some (mk_label_draw v txt
                (label_area e st hor tick_width p1 p2 (txt_get_size st txt)))).

(** The body of the [for] loop, for tick [i] and the line descriptor the
    previous turns left. *)
Definition draw_tick (e : lv_linearscale_ext_t) (st : lv_style_t) (indic_area : lv_area_t)
    (hor : bool) (level label_counter i : Z) (line_dsc : lv_draw_line_dsc_t)
    : outcome (lv_tick_draw_t * lv_draw_line_dsc_t) :=
  r <- int_rem i label_counter ;;
  let minor := negb (r =? 0) in
  let tick_width := if minor then Z.quot (scale_width st) 2 else scale_width st in
  pts <- tick_points e indic_area hor tick_width i ;;
  let line_dsc' := tick_line e st level i line_dsc in
  lbl <- tick_label_of e st hor minor tick_width i (fst pts) (snd pts) ;;
  Ok (mk_tick_draw minor tick_width (fst pts) (snd pts) line_dsc' lbl, line_dsc').

(** [for (i = 0; i < line_cnt; i++)]: [fuel] turns from index [i] on. *)
Fixpoint draw_ticks (body : Z -> lv_draw_line_dsc_t -> outcome (lv_tick_draw_t * lv_draw_line_dsc_t))
    (fuel : nat) (i : Z) (line_dsc : lv_draw_line_dsc_t) : outcome (list lv_tick_draw_t) :=
  match fuel with
  | O => Ok []
  | S fuel' =>
      r <- body i line_dsc ;;
      rest <- draw_ticks body fuel' (i + 1) (snd r) ;;
      Ok (fst r :: rest)
  end.

(** [bool hor = objw >= objh ? true : false] *)
Definition scale_hor (lscale : lv_obj_t) : bool :=
  lv_obj_get_width lscale >=? lv_obj_get_height lscale.

(** The style record answers for the drawn part, and the clip area only
    travels to the drawing primitives, so neither is an argument here. *)
Definition lv_linearscale_draw_scale (lscale : lv_obj_t) : outcome (list lv_tick_draw_t) :=
  let e := ext lscale in
  let st := style lscale in
  let hor := scale_hor lscale in
  level <- scale_level e ;;
  let indic_area := indic_area_of lscale in
  let line_dsc := mk_line_dsc (dsc_color (init_line_dsc st)) (dsc_width (init_line_dsc st)) 1 in
  let label_counter := scale_label_counter e in
  if line_cnt e >? 1 then
    draw_ticks (draw_tick e st indic_area hor level label_counter)
               (Z.to_nat (line_cnt e)) 0 line_dsc
  else Ok [].

(** ** The design callback *)

Inductive lv_design_mode_t : Type :=
| LV_DESIGN_DRAW_MAIN
| LV_DESIGN_DRAW_POST
| LV_DESIGN_COVER_CHK.

Inductive lv_design_res_t : Type :=
| LV_DESIGN_RES_OK
| LV_DESIGN_RES_NOT_COVER.

Inductive draw_cmd : Type :=
| DrawRect (a : lv_area_t)
| DrawLine (p1 p2 : lv_point_t) (dsc : lv_draw_line_dsc_t)
| DrawLabel (cord : lv_area_t) (txt : String.string).

Definition tick_cmds (t : lv_tick_draw_t) : list draw_cmd :=
  DrawLine (tick_p1 t) (tick_p2 t) (tick_line_dsc t)
  :: match tick_label t with
     | None => []
     | Some l => [DrawLabel (label_cord l) (scale_txt l)]
     end.

Definition lv_linearscale_design (lscale : lv_obj_t) (mode : lv_design_mode_t)
    : outcome (list draw_cmd * lv_design_res_t) :=
  match mode with
  | LV_DESIGN_COVER_CHK => Ok ([], LV_DESIGN_RES_NOT_COVER)
  | LV_DESIGN_DRAW_MAIN =>
      ticks <- lv_linearscale_draw_scale lscale ;;
      Ok (DrawRect (coords lscale) :: flat_map tick_cmds ticks, LV_DESIGN_RES_OK)
  | LV_DESIGN_DRAW_POST => Ok ([], LV_DESIGN_RES_OK)
  end.

(** ** Call sequences on a widget *)

Inductive setter_call : Type :=
| CallSetValue (value : Z)
| CallSetRange (min max : Z)
| CallSetScale (line_cnt' label_cnt' : Z)
| CallSetAlignment (dir : lv_linearscale_align_t)
| CallSetFormatter (cb : option lv_linearscale_format_cb_t).

Definition run_call (c : setter_call) (o : lv_obj_t) : lv_obj_t :=
  match c with
  | CallSetValue v => lv_linearscale_set_value o v
  | CallSetRange lo hi => lv_linearscale_set_range o lo hi
  | CallSetScale l n => lv_linearscale_set_scale o l n
  | CallSetAlignment d => lv_linearscale_set_alignment o d
  | CallSetFormatter cb => lv_linearscale_set_formatter_cb o cb
  end.

(** The widgets a program can hold: created, copied from one it holds, or
    changed through a setter. *)
Inductive reachable : lv_obj_t -> Prop :=
| reach_create (base : lv_obj_t) :
    reachable (lv_linearscale_create base None)
| reach_copy (base c : lv_obj_t) :
    reachable c -> reachable (lv_linearscale_create base (Some c))
| reach_call (c : setter_call) (o : lv_obj_t) :
    reachable o -> reachable (run_call c o).

(** The stored value is not below the minimum, and not above the maximum
    when the two bounds are in order. *)
Definition value_in_range (e : lv_linearscale_ext_t) : Prop :=
  min_value e <= cur_value e /\ (min_value e <= max_value e -> cur_value e <= max_value e).

(** Clamping into an interval. *)
Definition clamp (lo hi v : Z) : Z := Z.max lo (Z.min hi v).

(** The quotient rounded to the nearest integer (halves upward), for a
    positive divisor. *)
Definition round_div (a b : Z) : Z := (2 * a + b) / (2 * b).

(** ** When a render pass runs to its end *)

(** The length the ticks are spread over: the difference of the indicator
    area's end coordinates along the axis of the scale. *)
Definition scale_length (lscale : lv_obj_t) : Z :=
  let a := indic_area_of lscale in
  if scale_hor lscale then x2 a - x1 a else y2 a - y1 a.

(** The quotient the level is taken from, before it is stored in an
    [int16_t]. *)
Definition level_quot (e : lv_linearscale_ext_t) : Z :=
  Z.quot ((cur_value e - min_value e) * line_cnt e) (max_value e - min_value e).

(** The level is computed without a division by zero or an overflow. *)
Definition level_safe (e : lv_linearscale_ext_t) : Prop :=
  max_value e <> min_value e /\
  in_int (cur_value e - min_value e) /\
  in_int ((cur_value e - min_value e) * line_cnt e) /\
  in_int (max_value e - min_value e) /\
  in_int (level_quot e).

(** Sufficient for the whole pass over more than one tick: the level is
    computed, the step between major ticks is not zero, and the products of
    the tick positions and of the label values fit in an [int]. *)
Definition render_safe (lscale : lv_obj_t) : Prop :=
  let e := ext lscale in
  level_safe e /\
  1 < line_cnt e <= 65535 /\
  1 < label_cnt e /\ label_cnt e - 1 <= line_cnt e /\
  in_int (100 * scale_length lscale * (line_cnt e - 1)) /\
  in_int ((max_value e - min_value e) * (line_cnt e - 1)) /\
  in_int (min_value e) /\ in_int (max_value e).

(** What the pass draws for tick [i], given the level it computed. *)
Record tick_facts (lscale : lv_obj_t) (level i : Z) (t : lv_tick_draw_t) : Prop := {
  tf_minor :
    tick_minor t = negb (Z.rem i (scale_label_counter (ext lscale)) =? 0);
  tf_width :
    tick_width t = if tick_minor t then Z.quot (scale_width (style lscale)) 2
                   else scale_width (style lscale);
  tf_along :
    let a := indic_area_of lscale in
    let off := Z.quot (scale_length lscale * i) (line_cnt (ext lscale) - 1) in
    if scale_hor lscale
    then px (tick_p1 t) = to_int16 (x1 a + off) /\ px (tick_p2 t) = px (tick_p1 t)
    else py (tick_p1 t) = to_int16 (y2 a - off) /\ py (tick_p2 t) = py (tick_p1 t);
  tf_beyond :
    level <= i ->
    dsc_color (tick_line_dsc t) = scale_end_color (style lscale) /\
    dsc_width (tick_line_dsc t) = scale_end_line_width (style lscale);
  tf_below :
    i < level ->
    dsc_color (tick_line_dsc t) =
      lv_color_mix (scale_grad_color (style lscale)) (line_color (style lscale))
                   (Z.quot (255 * i) (line_cnt (ext lscale)));
  tf_no_label :
    tick_minor t = true -> tick_label t = None;
  tf_label :
    tick_minor t = false ->
    exists l, tick_label t = Some l /\
      scale_act l =
        Z.quot ((max_value (ext lscale) - min_value (ext lscale)) * i)
               (line_cnt (ext lscale) - 1) + min_value (ext lscale) /\
      scale_txt l = match format_cb (ext lscale) with
                    | None => num_to_str (style lscale) (scale_act l)
                    | Some cb => cb (scale_act l)
                    end
}.

(** ** A widget to run the code on *)

Definition sample_style : lv_style_t :=
  mk_style 0 0 0 0 10
           (mk_color 255 0 0) (mk_color 0 0 255) (mk_color 128 128 128) 1
           (mk_line_dsc (mk_color 255 0 0) 2 0)
           (fun _ => String.EmptyString) (fun _ => mk_point 20 10).

(** A widget of 150 by 100 pixels with the defaults of creation. *)
Definition sample_base : lv_obj_t :=
  mk_obj (mk_area 0 0 149 99) sample_style default_ext 0.

Definition sample_scale : lv_obj_t := lv_linearscale_create sample_base None.

(** The same widget turned on its side: 100 by 150 pixels. *)
Definition tall_scale : lv_obj_t :=
  lv_linearscale_create (mk_obj (mk_area 0 0 99 149) sample_style default_ext 0) None.

(** 150 by 100 pixels with 30 pixels of padding left and right, so that the
    indicator area is 90 by 100. *)
Definition padded_scale : lv_obj_t :=
  lv_linearscale_create
    (mk_obj (mk_area 0 0 149 99)
            (mk_style 30 30 0 0 10
                      (mk_color 255 0 0) (mk_color 0 0 255) (mk_color 128 128 128) 1
                      (mk_line_dsc (mk_color 255 0 0) 2 0)
                      (fun _ => String.EmptyString) (fun _ => mk_point 20 10))
            default_ext 0)
    None.

(** 11 by 6 pixels, four ticks that are all major, range 0..10. *)
Definition short_scale : lv_obj_t :=
  lv_linearscale_set_range
    (lv_linearscale_set_scale
       (lv_linearscale_create (mk_obj (mk_area 0 0 10 5) sample_style default_ext 0) None)
       4 4)
    0 10.

(** 40000 ticks, two labels, the value at the maximum. *)
Definition dense_scale : lv_obj_t :=
  lv_linearscale_set_value (lv_linearscale_set_scale sample_scale 40000 2) 100.

(** How far apart two colours are, channel by channel. *)
Definition color_dist (c c' : lv_color_t) : Z :=
  Z.abs (ch_red c - ch_red c') + Z.abs (ch_green c - ch_green c')
  + Z.abs (ch_blue c - ch_blue c').

(** ** Counting what a pass draws *)

(** A tick that was given a label. *)
Definition has_label (t : lv_tick_draw_t) : bool :=
  match tick_label t with
  | Some _ => true
  | None => false
  end.

(** How many ticks of a pass were labelled. *)
Definition count_labelled (ticks : list lv_tick_draw_t) : nat :=
  List.length (filter has_label ticks).

Definition is_line_cmd (c : draw_cmd) : bool :=
  match c with
  | DrawLine _ _ _ => true
  | _ => false
  end.

Definition is_label_cmd (c : draw_cmd) : bool :=
  match c with
  | DrawLabel _ _ => true
  | _ => false
  end.

(** How many of the indices below [n] are multiples of [step]. *)
Fixpoint count_multiples (step : Z) (n : nat) : nat :=
  match n with
  | O => O
  | S n' => (count_multiples step n' + if (Z.of_nat n' mod step =? 0)%Z then 1 else 0)%nat
  end.

(** ** Tactics *)

Ltac no_if t :=
  lazymatch t with
  | context [if _ then _ else _] => fail
  | _ => idtac
  end.

(* Case analysis on the comparisons of the goal, innermost first. *)
Ltac cmp_cases :=
  repeat match goal with
         | |- context [Z.gtb ?a ?b] => rewrite (Z.gtb_ltb a b)
         | |- context [Z.geb ?a ?b] => rewrite (Z.geb_leb a b)
         | |- context [Z.eqb ?a ?b] => no_if a; no_if b; destruct (Z.eqb_spec a b)
         | |- context [Z.ltb ?a ?b] => no_if a; no_if b; destruct (Z.ltb_spec a b)
         | |- context [Z.leb ?a ?b] => no_if a; no_if b; destruct (Z.leb_spec a b)
         end.

(* Unfolds the setters down to the comparisons they make. *)
Ltac unfold_setters :=
  cbv [lv_linearscale_set_range lv_linearscale_set_value lv_linearscale_set_scale
       lv_linearscale_set_alignment lv_linearscale_set_formatter_cb
       lv_obj_invalidate with_ext set_cur_value set_min_value set_max_value
       value_in_range clamp andb
       ext coords style invalidations
       line_cnt label_cnt cur_value min_value max_value align format_cb] in *.

Ltac setter_cases :=
  unfold_setters; cmp_cases; unfold_setters; cmp_cases; unfold_setters; cmp_cases;
  unfold_setters.

(* One step of the error monad. *)
Ltac step_bind := cbv beta iota delta [bind].

(* The safety conditions of a concrete widget, by computation. *)
Ltac prove_safe :=
  unfold render_safe, level_safe, in_int; vm_compute;
  repeat split; discriminate.

(** * Properties *)

(** ** Setters *)

Lemma set_value_same (o : lv_obj_t) :
  lv_linearscale_set_value o (cur_value (ext o)) = o.
Proof.
  unfold lv_linearscale_set_value. now rewrite Z.eqb_refl.
Qed.

Lemma set_value_in_range (o : lv_obj_t) (v : Z) :
  value_in_range (ext o) -> value_in_range (ext (lv_linearscale_set_value o v)).
Proof.
  destruct o as [c s [l n cur lo hi a f] k].
  setter_cases; lia.
Qed.

Lemma set_range_in_range (o : lv_obj_t) (lo hi : Z) :
  value_in_range (ext o) -> value_in_range (ext (lv_linearscale_set_range o lo hi)).
Proof.
  destruct o as [c s [l n cur lo0 hi0 a f] k].
  setter_cases; lia.
Qed.

Lemma run_call_in_range (c : setter_call) (o : lv_obj_t) :
  value_in_range (ext o) -> value_in_range (ext (run_call c o)).
Proof.
  destruct c; simpl.
  - apply set_value_in_range.
  - apply set_range_in_range.
  - destruct o as [c s [l n cur lo hi a f] k]. setter_cases; auto.
  - destruct o as [c s [l n cur lo hi a f] k]. setter_cases; auto.
  - destruct o as [c s [l n cur lo hi a f] k]. setter_cases; auto.
Qed.

Lemma reachable_in_range (o : lv_obj_t) :
  reachable o -> value_in_range (ext o).
Proof.
  induction 1 as [base | base c _ IH | c o _ IH].
  - unfold value_in_range; simpl; lia.
  - exact IH.
  - now apply run_call_in_range.
Qed.

(** C1, as the spec words it, fails: after [lv_linearscale_set_range] with
    the bounds the wrong way round the stored value cannot lie between
    them.  On a fresh widget, [set_range(10, 5)] leaves the value 10 above
    the maximum 5. *)
Lemma set_range_inverted_bounds_out_of_range :
  let o := lv_linearscale_set_range sample_scale 10 5 in
  reachable o /\
  ~ (min_value (ext o) <= cur_value (ext o) <= max_value (ext o)).
Proof.
  split.
  - apply (reach_call (CallSetRange 10 5)). apply reach_create.
  - simpl. lia.
Qed.

(** C1 (amended): after any setter call on a widget the program holds, the
    stored value is at least the minimum, and at most the maximum whenever
    the stored minimum does not exceed the stored maximum; with the value
    100 stored in the range 0..100, [set_range(0, 50)] makes the value 50. *)
Theorem setters_keep_value_in_range :
  (forall o : lv_obj_t, reachable o ->
   forall c : setter_call,
     let o' := run_call c o in
     min_value (ext o') <= cur_value (ext o') /\
     (min_value (ext o') <= max_value (ext o') -> cur_value (ext o') <= max_value (ext o')))
  /\
  (forall base : lv_obj_t,
     let o := lv_linearscale_set_value (lv_linearscale_create base None) 100 in
     lv_linearscale_get_value o = 100 /\
     lv_linearscale_get_value (lv_linearscale_set_range o 0 50) = 50).
Proof.
  split.
  - intros o Hr c o'. subst o'.
    apply (run_call_in_range c o), reachable_in_range, Hr.
  - intros base. split; reflexivity.
Qed.

Lemma setters_keep_value_in_range_witness :
  reachable sample_scale /\
  (let o' := run_call (CallSetRange 20 80) sample_scale in
   min_value (ext o') <= cur_value (ext o') /\
   (min_value (ext o') <= max_value (ext o') -> cur_value (ext o') <= max_value (ext o'))).
Proof.
  split.
  - apply reach_create.
  - apply (proj1 setters_keep_value_in_range sample_scale (reach_create sample_base)
             (CallSetRange 20 80)).
Defined.

(** C2, as the spec words it, fails: with the value 100 stored,
    [set_range(0, 50)] re-clamps the value to 50 and issues one redraw
    request, not two. *)
Lemma set_range_reclamp_not_two_invalidations :
  let o := lv_linearscale_set_value sample_scale 100 in
  let o' := lv_linearscale_set_range o 0 50 in
  cur_value (ext o) = 100 /\ cur_value (ext o') = 50 /\
  invalidations o' = S (invalidations o) /\
  invalidations o' <> S (S (invalidations o)).
Proof.
  simpl. repeat split; try reflexivity. discriminate.
Qed.

(** C2 (amended): when [lv_linearscale_set_range(min, max)] changes the
    bounds and the stored value falls outside them, the function stores the
    nearer bound itself before it calls [lv_linearscale_set_value] with that
    same value, so the call returns at its equality test and
    [lv_obj_invalidate] is issued exactly once in that path. *)
Theorem set_range_reclamp_invalidates_once (o : lv_obj_t) (lo hi : Z) :
  ~ (min_value (ext o) = lo /\ max_value (ext o) = hi) ->
  cur_value (ext o) > hi \/ cur_value (ext o) < lo ->
  let o' := lv_linearscale_set_range o lo hi in
  (forall w : lv_obj_t, lv_linearscale_set_value w (cur_value (ext w)) = w) /\
  invalidations o' = S (invalidations o) /\
  min_value (ext o') = lo /\ max_value (ext o') = hi /\
  cur_value (ext o') =
    (if cur_value (ext o) >? hi then (if hi <? lo then lo else hi) else lo).
Proof.
  intros Hchg Hout o'. subst o'.
  split; [exact set_value_same|].
  destruct o as [c s [l n cur lo0 hi0 a f] k].
  setter_cases; repeat split; try reflexivity; try lia.
Qed.

Lemma set_range_reclamp_invalidates_once_witness :
  let o := lv_linearscale_set_value sample_scale 100 in
  let o' := lv_linearscale_set_range o 0 50 in
  cur_value (ext o) > 50 /\
  invalidations o' = S (invalidations o) /\ cur_value (ext o') = 50.
Proof.
  cbv zeta. split; [reflexivity|].
  assert (Hchg : ~ (min_value (ext (lv_linearscale_set_value sample_scale 100)) = 0 /\
                    max_value (ext (lv_linearscale_set_value sample_scale 100)) = 50))
    by (intros [_ H]; discriminate H).
  assert (Hout : cur_value (ext (lv_linearscale_set_value sample_scale 100)) > 50 \/
                 cur_value (ext (lv_linearscale_set_value sample_scale 100)) < 0)
    by (left; reflexivity).
  destruct (set_range_reclamp_invalidates_once
              (lv_linearscale_set_value sample_scale 100) 0 50 Hchg Hout)
    as (_ & Hi & _ & _ & Hc).
  split; [exact Hi | exact Hc].
Defined.

(** C10: a call [lv_linearscale_set_value(v)] whose argument differs from
    the stored value but clamps to it changes no stored field and still
    issues a redraw request: the equality test looks at the raw argument. *)
Theorem set_value_redundant_invalidate (o : lv_obj_t) (v : Z) :
  v <> cur_value (ext o) ->
  clamp (min_value (ext o)) (max_value (ext o)) v = cur_value (ext o) ->
  let o' := lv_linearscale_set_value o v in
  ext o' = ext o /\ coords o' = coords o /\ style o' = style o /\
  invalidations o' = S (invalidations o).
Proof.
  intros Hne Hcl o'. subst o'.
  destruct o as [c s [l n cur lo hi a f] k].
  setter_cases; try congruence.
  all: repeat split; f_equal; lia.
Qed.

Lemma set_value_redundant_invalidate_witness :
  let o := lv_linearscale_set_value sample_scale 100 in
  let o' := lv_linearscale_set_value o 150 in
  cur_value (ext o) = max_value (ext o) /\
  ext o' = ext o /\ invalidations o' = S (invalidations o).
Proof.
  cbv zeta. split; [reflexivity|].
  assert (Hne : 150 <> cur_value (ext (lv_linearscale_set_value sample_scale 100)))
    by discriminate.
  assert (Hcl : clamp (min_value (ext (lv_linearscale_set_value sample_scale 100)))
                      (max_value (ext (lv_linearscale_set_value sample_scale 100))) 150
                = cur_value (ext (lv_linearscale_set_value sample_scale 100)))
    by reflexivity.
  destruct (set_value_redundant_invalidate
              (lv_linearscale_set_value sample_scale 100) 150 Hne Hcl)
    as (He & _ & _ & Hi).
  split; [exact He | exact Hi].
Defined.


(** ** C integer arithmetic *)

Lemma in_intb_true (x : Z) : in_int x -> in_intb x = true.
Proof.
  unfold in_int, in_intb. intros [H1 H2].
  apply andb_true_intro; split; now apply Z.leb_le.
Qed.

Lemma int_chk_ok (x : Z) : in_int x -> int_chk x = Ok x.
Proof.
  intros H. unfold int_chk. now rewrite (in_intb_true x H).
Qed.

Lemma int_div_ok (a b : Z) : b <> 0 -> in_int (Z.quot a b) -> int_div a b = Ok (Z.quot a b).
Proof.
  intros Hb H. unfold int_div.
  destruct (Z.eqb_spec b 0); [contradiction|]. now apply int_chk_ok.
Qed.

Lemma int_rem_ok (a b : Z) : b <> 0 -> in_int (Z.quot a b) -> int_rem a b = Ok (Z.rem a b).
Proof.
  intros Hb H. unfold int_rem.
  destruct (Z.eqb_spec b 0); [contradiction|]. now rewrite (in_intb_true _ H).
Qed.

Lemma quot_toward_zero (a b : Z) :
  0 < b -> (0 <= a -> 0 <= Z.quot a b <= a) /\ (a <= 0 -> a <= Z.quot a b <= 0).
Proof.
  intros Hb. split; intros Ha.
  - pose proof (Z.quot_pos a b Ha Hb).
    rewrite Z.quot_div_nonneg in * by lia.
    split; [lia | apply Z.div_le_upper_bound; nia].
  - pose proof (Z.quot_opp_l a b ltac:(lia)) as Ho.
    pose proof (Z.quot_pos (- a) b ltac:(lia) Hb).
    assert (Z.quot (- a) b <= - a).
    { rewrite Z.quot_div_nonneg by lia. apply Z.div_le_upper_bound; nia. }
    lia.
Qed.

Lemma quot_in_int (a b : Z) : 0 < b -> in_int a -> in_int (Z.quot a b).
Proof.
  intros Hb Ha. destruct (quot_toward_zero a b Hb) as [Hp Hn].
  unfold in_int, INT_MIN, INT_MAX in *.
  destruct (Z.le_gt_cases 0 a); [specialize (Hp ltac:(lia)) | specialize (Hn ltac:(lia))]; lia.
Qed.

Lemma scaled_in_int (c k n : Z) : 0 <= k <= n -> in_int (c * n) -> in_int (c * k).
Proof.
  unfold in_int, INT_MIN, INT_MAX. intros Hk Hc.
  destruct (Z.le_gt_cases 0 c).
  - assert (0 <= c * k) by nia. assert (c * k <= c * n) by nia. lia.
  - assert (c * k <= 0) by nia. assert (c * n <= c * k) by nia. lia.
Qed.

Lemma to_int16_small (x : Z) : in_int16 x -> to_int16 x = x.
Proof.
  unfold in_int16, to_int16, wrap_signed. intros H.
  change (2 ^ (16 - 1)) with 32768. change (2 ^ 16) with 65536.
  rewrite Z.mod_small by lia. lia.
Qed.

Lemma to_int16_range (x : Z) : in_int16 (to_int16 x).
Proof.
  unfold in_int16, to_int16, wrap_signed.
  change (2 ^ (16 - 1)) with 32768. change (2 ^ 16) with 65536.
  pose proof (Z.mod_pos_bound (x + 32768) 65536). lia.
Qed.

Lemma to_int16_nonzero (x : Z) : 1 <= x <= 65535 -> to_int16 x <> 0.
Proof.
  intros H. unfold to_int16, wrap_signed.
  change (2 ^ (16 - 1)) with 32768. change (2 ^ 16) with 65536.
  destruct (Z.le_gt_cases x 32767).
  - rewrite Z.mod_small by lia. lia.
  - replace (x + 32768) with (x - 32768 + 1 * 65536) by lia.
    rewrite Z.mod_add by lia. rewrite Z.mod_small by lia. lia.
Qed.

Lemma to_uint8_small (x : Z) : 0 <= x < 256 -> to_uint8 x = x.
Proof.
  intros H. unfold to_uint8. now apply Z.mod_small.
Qed.

(** The scaling by 100 cancels. *)
Lemma quot_scaled_100 (a b : Z) : b <> 0 -> Z.quot (Z.quot (100 * a) b) 100 = Z.quot a b.
Proof.
  intros Hb. rewrite Z.quot_quot by lia.
  replace (100 * a) with (a * 100) by lia.
  apply Z.quot_mul_cancel_r; lia.
Qed.

(** A share [k / n] of a range [r] lies between zero and [r]. *)
Lemma quot_share (r k n : Z) :
  0 < n -> 0 <= k <= n ->
  (0 <= r -> 0 <= Z.quot (r * k) n <= r) /\ (r <= 0 -> r <= Z.quot (r * k) n <= 0).
Proof.
  intros Hn Hk. split; intros Hr.
  - assert (0 <= r * k) by nia.
    pose proof (Z.quot_pos (r * k) n ltac:(lia) Hn).
    rewrite Z.quot_div_nonneg in * by lia.
    split; [lia | apply Z.div_le_upper_bound; nia].
  - pose proof (Z.quot_opp_l (r * k) n ltac:(lia)) as Ho.
    assert (0 <= - (r * k)) by nia.
    pose proof (Z.quot_pos (- (r * k)) n ltac:(lia) Hn).
    assert (Z.quot (- (r * k)) n <= - r).
    { rewrite Z.quot_div_nonneg by lia. apply Z.div_le_upper_bound; nia. }
    lia.
Qed.


(** ** The tick loop *)

Lemma scale_level_ok (e : lv_linearscale_ext_t) :
  level_safe e -> scale_level e = Ok (to_int16 (level_quot e)).
Proof.
  intros (Hne & Hd & Hm & Hr & Hq).
  unfold scale_level, int_sub, int_mul.
  rewrite (int_chk_ok _ Hd). step_bind.
  rewrite (int_chk_ok _ Hm). step_bind.
  rewrite (int_chk_ok _ Hr). step_bind.
  rewrite int_div_ok; [reflexivity | lia | exact Hq].
Qed.

Lemma tick_offset_ok (e : lv_linearscale_ext_t) (len i : Z) :
  1 < line_cnt e -> 0 <= i <= line_cnt e - 1 ->
  in_int (100 * len * (line_cnt e - 1)) ->
  tick_offset e len i = Ok (Z.quot (len * i) (line_cnt e - 1)).
Proof.
  intros Hn Hi Hb.
  assert (Hi' : in_int (100 * len * i)) by (apply (scaled_in_int _ i (line_cnt e - 1)); auto).
  assert (H1 : in_int (100 * len * 1)) by (apply (scaled_in_int _ 1 (line_cnt e - 1)); auto; lia).
  rewrite Z.mul_1_r in H1.
  unfold tick_offset, int_mul.
  rewrite (int_chk_ok _ H1). step_bind.
  rewrite (int_chk_ok _ Hi'). step_bind.
  assert (Hq : in_int (Z.quot (100 * len * i) (line_cnt e - 1)))
    by (apply quot_in_int; [lia | exact Hi']).
  rewrite (int_div_ok (100 * len * i) (line_cnt e - 1)); [| lia | exact Hq]. step_bind.
  rewrite int_div_ok; [| lia | apply quot_in_int; [lia | exact Hq]].
  f_equal. rewrite <- Z.mul_assoc. apply quot_scaled_100. lia.
Qed.

Lemma label_value_ok (e : lv_linearscale_ext_t) (i : Z) :
  1 < line_cnt e -> 0 <= i <= line_cnt e - 1 ->
  in_int ((max_value e - min_value e) * (line_cnt e - 1)) ->
  in_int (min_value e) -> in_int (max_value e) ->
  label_value e i =
    Ok (Z.quot ((max_value e - min_value e) * i) (line_cnt e - 1) + min_value e).
Proof.
  intros Hn Hi Hb Hlo Hhi.
  assert (Hi' : in_int ((max_value e - min_value e) * i))
    by (apply (scaled_in_int _ i (line_cnt e - 1)); auto).
  assert (H1 : in_int ((max_value e - min_value e) * 1))
    by (apply (scaled_in_int _ 1 (line_cnt e - 1)); auto; lia).
  rewrite Z.mul_1_r in H1.
  unfold label_value, int_sub, int_mul, int_add.
  rewrite (int_chk_ok _ H1). step_bind.
  rewrite (int_chk_ok _ Hi'). step_bind.
  rewrite int_div_ok; [| lia | apply quot_in_int; [lia | exact Hi']]. step_bind.
  apply int_chk_ok.
  destruct (quot_share (max_value e - min_value e) i (line_cnt e - 1)) as [Hp Hm]; [lia | lia |].
  unfold in_int, INT_MIN, INT_MAX in *.
  destruct (Z.le_gt_cases 0 (max_value e - min_value e));
    [specialize (Hp ltac:(lia)) | specialize (Hm ltac:(lia))]; lia.
Qed.

Lemma draw_ticks_all
    (body : Z -> lv_draw_line_dsc_t -> outcome (lv_tick_draw_t * lv_draw_line_dsc_t))
    (P : Z -> lv_tick_draw_t -> Prop) (fuel : nat) :
  forall (i0 : Z) (d : lv_draw_line_dsc_t),
    (forall k d', i0 <= k < i0 + Z.of_nat fuel -> exists r, body k d' = Ok r /\ P k (fst r)) ->
    exists ts, draw_ticks body fuel i0 d = Ok ts /\ length ts = fuel /\
      forall (k : nat) (t : lv_tick_draw_t), nth_error ts k = Some t -> P (i0 + Z.of_nat k) t.
Proof.
  induction fuel as [| fuel IH]; intros i0 d Hbody.
  - exists []. simpl. repeat split. intros [|k] t; discriminate.
  - destruct (Hbody i0 d ltac:(lia)) as ([t0 d0] & Hr & HP).
    destruct (IH (i0 + 1) d0) as (ts & Hts & Hlen & Hnth).
    { intros k d' Hk. apply Hbody. lia. }
    exists (t0 :: ts). simpl. rewrite Hr. simpl. rewrite Hts. simpl.
    repeat split; [now rewrite Hlen|].
    intros [|k] t Hk; simpl in Hk.
    + injection Hk as <-. now rewrite Z.add_0_r.
    + replace (i0 + Z.of_nat (S k)) with (i0 + 1 + Z.of_nat k) by lia. now apply Hnth.
Qed.

Lemma quot_nonneg_in_int (a b : Z) : 0 <= a <= INT_MAX -> b <> 0 -> in_int (Z.quot a b).
Proof.
  intros Ha Hb. unfold in_int, INT_MIN, INT_MAX in *.
  destruct (Z.lt_trichotomy b 0) as [Hn | [H0 | Hp]]; [| contradiction |].
  - pose proof (Z.quot_opp_r a (- b) ltac:(lia)) as Ho.
    rewrite Z.opp_involutive in Ho.
    destruct (quot_toward_zero a (- b) ltac:(lia)) as [Hq _].
    specialize (Hq ltac:(lia)). lia.
  - destruct (quot_toward_zero a b Hp) as [Hq _].
    specialize (Hq ltac:(lia)). lia.
Qed.

Lemma label_counter_nonzero (e : lv_linearscale_ext_t) :
  1 < line_cnt e <= 65535 -> 1 < label_cnt e -> label_cnt e - 1 <= line_cnt e ->
  scale_label_counter e <> 0.
Proof.
  intros Hn Hl Hle. unfold scale_label_counter.
  rewrite Z.gtb_ltb. destruct (Z.ltb_spec 1 (label_cnt e)); [| lia].
  apply to_int16_nonzero.
  rewrite Z.quot_div_nonneg by lia.
  split.
  - apply Z.div_le_lower_bound; lia.
  - assert (line_cnt e / (label_cnt e - 1) <= line_cnt e)
      by (apply Z.div_le_upper_bound; nia).
    lia.
Qed.

Lemma mix_ratio_bounds (i n : Z) : 0 <= i < n -> 0 <= Z.quot (255 * i) n < 255.
Proof.
  intros H. rewrite Z.quot_div_nonneg by lia. split.
  - apply Z.div_pos; lia.
  - apply Z.div_lt_upper_bound; lia.
Qed.

Lemma draw_tick_ok (lscale : lv_obj_t) (level i : Z) (d : lv_draw_line_dsc_t) :
  render_safe lscale -> 0 <= i < line_cnt (ext lscale) ->
  exists r,
    draw_tick (ext lscale) (style lscale) (indic_area_of lscale) (scale_hor lscale)
              level (scale_label_counter (ext lscale)) i d = Ok r /\
    tick_facts lscale level i (fst r).
Proof.
  intros (Hlev & Hn & Hl & Hle & Hlen & Hrange & Hlo & Hhi) Hi.
  pose proof (label_counter_nonzero _ Hn Hl Hle) as Hlc.
  assert (Hrem : int_rem i (scale_label_counter (ext lscale))
                 = Ok (Z.rem i (scale_label_counter (ext lscale)))).
  { apply int_rem_ok; [exact Hlc|].
    apply quot_nonneg_in_int; [unfold INT_MAX; lia | exact Hlc]. }
  assert (Hoff : tick_offset (ext lscale) (scale_length lscale) i
                 = Ok (Z.quot (scale_length lscale * i) (line_cnt (ext lscale) - 1)))
    by (apply tick_offset_ok; [lia | lia | exact Hlen]).
  assert (Hval : label_value (ext lscale) i
                 = Ok (Z.quot ((max_value (ext lscale) - min_value (ext lscale)) * i)
                              (line_cnt (ext lscale) - 1) + min_value (ext lscale)))
    by (apply label_value_ok; auto; lia).
  unfold draw_tick. rewrite Hrem. step_bind.
  set (minor := negb (Z.rem i (scale_label_counter (ext lscale)) =? 0)).
  set (tw := if minor then Z.quot (scale_width (style lscale)) 2 else scale_width (style lscale)).
  assert (Hpts : exists p1 p2,
             tick_points (ext lscale) (indic_area_of lscale) (scale_hor lscale) tw i = Ok (p1, p2) /\
             let a := indic_area_of lscale in
             let off := Z.quot (scale_length lscale * i) (line_cnt (ext lscale) - 1) in
             if scale_hor lscale
             then px p1 = to_int16 (x1 a + off) /\ px p2 = px p1
             else py p1 = to_int16 (y2 a - off) /\ py p2 = py p1).
  { unfold tick_points. unfold scale_length in Hoff |- *.
    destruct (scale_hor lscale); rewrite Hoff; step_bind.
    - destruct (align (ext lscale) =? LV_LINEARSCALE_ALIGN_TOP);
        eexists; eexists; (split; [reflexivity | split; reflexivity]).
    - destruct (align (ext lscale) =? LV_LINEARSCALE_ALIGN_LEFT);
        eexists; eexists; (split; [reflexivity | split; reflexivity]). }
  destruct Hpts as (p1 & p2 & Hpts & Halong).
  rewrite Hpts. step_bind. unfold tick_label_of.
  assert (Hbeyond : level <= i ->
            dsc_color (tick_line (ext lscale) (style lscale) level i d)
              = scale_end_color (style lscale) /\
            dsc_width (tick_line (ext lscale) (style lscale) level i d)
              = scale_end_line_width (style lscale)).
  { intros Hb. unfold tick_line. rewrite Z.geb_leb.
    destruct (Z.leb_spec level i); [split; reflexivity | lia]. }
  assert (Hbelow : i < level ->
            dsc_color (tick_line (ext lscale) (style lscale) level i d)
              = lv_color_mix (scale_grad_color (style lscale)) (line_color (style lscale))
                             (Z.quot (255 * i) (line_cnt (ext lscale)))).
  { intros Hb. unfold tick_line. rewrite Z.geb_leb.
    destruct (Z.leb_spec level i); [lia |].
    cbn [dsc_color]. rewrite to_uint8_small; [reflexivity|].
    pose proof (mix_ratio_bounds i (line_cnt (ext lscale)) Hi). lia. }
  destruct minor eqn:Hminor.
  - step_bind. eexists; split; [reflexivity|].
    constructor; cbn [fst tick_minor tick_width tick_p1 tick_p2 tick_line_dsc tick_label].
    + exact (eq_sym Hminor).
    + reflexivity.
    + exact Halong.
    + exact Hbeyond.
    + exact Hbelow.
    + reflexivity.
    + discriminate.
  - rewrite Hval. step_bind. eexists; split; [reflexivity|].
    constructor; cbn [fst tick_minor tick_width tick_p1 tick_p2 tick_line_dsc tick_label].
    + exact (eq_sym Hminor).
    + reflexivity.
    + exact Halong.
    + exact Hbeyond.
    + exact Hbelow.
    + discriminate.
    + intros _. eexists. split; [reflexivity|]. cbn [scale_act scale_txt].
      split; [reflexivity|].
      destruct (format_cb (ext lscale)); reflexivity.
Qed.

(** A pass that is safe runs to its end and draws one tick per index, each
    as [tick_facts] describes. *)
Lemma draw_scale_ok (lscale : lv_obj_t) :
  render_safe lscale ->
  exists ticks,
    lv_linearscale_draw_scale lscale = Ok ticks /\
    scale_level (ext lscale) = Ok (to_int16 (level_quot (ext lscale))) /\
    List.length ticks = Z.to_nat (line_cnt (ext lscale)) /\
    forall (i : nat) (t : lv_tick_draw_t),
      nth_error ticks i = Some t ->
      tick_facts lscale (to_int16 (level_quot (ext lscale))) (Z.of_nat i) t.
Proof.
  intros Hs. pose proof Hs as (Hlev & Hn & _).
  pose proof (scale_level_ok _ Hlev) as Hl.
  unfold lv_linearscale_draw_scale. rewrite Hl. step_bind.
  rewrite Z.gtb_ltb. destruct (Z.ltb_spec 1 (line_cnt (ext lscale))); [| lia].
  destruct (draw_ticks_all
              (draw_tick (ext lscale) (style lscale) (indic_area_of lscale) (scale_hor lscale)
                         (to_int16 (level_quot (ext lscale))) (scale_label_counter (ext lscale)))
              (tick_facts lscale (to_int16 (level_quot (ext lscale))))
              (Z.to_nat (line_cnt (ext lscale))) 0
              (mk_line_dsc (dsc_color (init_line_dsc (style lscale)))
                           (dsc_width (init_line_dsc (style lscale))) 1))
    as (ts & Hts & Hlen & Hnth).
  { intros k d' Hk. apply draw_tick_ok; [exact Hs | lia]. }
  exists ts. split; [exact Hts|]. split; [reflexivity|]. split; [exact Hlen|].
  intros i t Hi. exact (Hnth i t Hi).
Qed.


(** ** The widgets of the examples *)

Lemma sample_scale_safe : render_safe sample_scale.
Proof. prove_safe. Qed.

Lemma tall_scale_safe : render_safe tall_scale.
Proof. prove_safe. Qed.

Lemma short_scale_safe : render_safe short_scale.
Proof. prove_safe. Qed.

Lemma dense_scale_safe : render_safe dense_scale.
Proof. prove_safe. Qed.

Lemma dense_scale_reachable : reachable dense_scale.
Proof.
  apply (reach_call (CallSetValue 100)), (reach_call (CallSetScale 40000 2)), reach_create.
Qed.

(** ** Orientation and tick positions *)

(** C3, as the spec words it, fails: the orientation is taken from the
    widget's own width and height, before the paddings are subtracted.  A
    widget of 150 by 100 pixels padded by 30 pixels left and right has an
    indicator area of 90 by 100, narrower than high, and is drawn
    horizontally all the same. *)
Lemma orientation_ignores_padding :
  lv_area_get_width (indic_area_of padded_scale) = 90 /\
  lv_area_get_height (indic_area_of padded_scale) = 100 /\
  scale_hor padded_scale = true /\
  ~ (scale_hor padded_scale = true <->
     lv_area_get_height (indic_area_of padded_scale)
       <= lv_area_get_width (indic_area_of padded_scale)).
Proof.
  repeat split; try reflexivity.
  intros [H _]. specialize (H eq_refl). vm_compute in H. apply H. reflexivity.
Qed.

(** C3 (amended): in the render pass the orientation is horizontal if and
    only if the widget's own width (its rectangle before the paddings are
    subtracted) is at least its own height; swapping the width and height
    of a widget that is not square flips the orientation; and the ticks of a
    horizontal scale are placed from the left edge of the indicator area,
    those of a vertical scale from its bottom edge. *)
Theorem orientation_from_widget_size :
  (forall o : lv_obj_t,
     scale_hor o = true <-> lv_obj_get_height o <= lv_obj_get_width o) /\
  (forall o o' : lv_obj_t,
     lv_obj_get_width o' = lv_obj_get_height o ->
     lv_obj_get_height o' = lv_obj_get_width o ->
     lv_obj_get_width o <> lv_obj_get_height o ->
     scale_hor o' = negb (scale_hor o)) /\
  (forall o : lv_obj_t,
     render_safe o ->
     exists ticks,
       lv_linearscale_draw_scale o = Ok ticks /\
       List.length ticks = Z.to_nat (line_cnt (ext o)) /\
       forall (i : nat) (t : lv_tick_draw_t),
         nth_error ticks i = Some t ->
         let a := indic_area_of o in
         let off := Z.quot (scale_length o * Z.of_nat i) (line_cnt (ext o) - 1) in
         if scale_hor o
         then px (tick_p1 t) = to_int16 (x1 a + off) /\ px (tick_p2 t) = px (tick_p1 t)
         else py (tick_p1 t) = to_int16 (y2 a - off) /\ py (tick_p2 t) = py (tick_p1 t)).
Proof.
  split; [| split].
  - intros o. unfold scale_hor. rewrite Z.geb_leb. apply Z.leb_le.
  - intros o o' Hw Hh Hne. unfold scale_hor. rewrite Hw, Hh, !Z.geb_leb.
    destruct (Z.leb_spec (lv_obj_get_width o) (lv_obj_get_height o));
      destruct (Z.leb_spec (lv_obj_get_height o) (lv_obj_get_width o));
      simpl; try reflexivity; lia.
  - intros o Hs.
    destruct (draw_scale_ok o Hs) as (ticks & Hd & _ & Hlen & Hf).
    exists ticks. split; [exact Hd|]. split; [exact Hlen|].
    intros i t Hi. exact (tf_along _ _ _ _ (Hf i t Hi)).
Qed.

Lemma orientation_from_widget_size_witness :
  scale_hor sample_scale = true /\ scale_hor tall_scale = false /\
  (exists ticks, lv_linearscale_draw_scale sample_scale = Ok ticks /\
                 List.length ticks = 26%nat) /\
  (exists ticks, lv_linearscale_draw_scale tall_scale = Ok ticks /\
                 List.length ticks = 26%nat).
Proof.
  destruct orientation_from_widget_size as (_ & Hswap & Hdraw).
  split; [reflexivity|]. split.
  - apply (Hswap sample_scale tall_scale); [reflexivity | reflexivity | discriminate].
  - split.
    + destruct (Hdraw sample_scale sample_scale_safe) as (ticks & Hd & Hlen & _).
      exists ticks. split; [exact Hd | exact Hlen].
    + destruct (Hdraw tall_scale tall_scale_safe) as (ticks & Hd & Hlen & _).
      exists ticks. split; [exact Hd | exact Hlen].
Defined.

(** C4, as the spec words it, fails: the offset is the quotient cut off, not
    rounded.  With four ticks over an indicator area whose end coordinates
    are 10 apart (11 pixels wide), tick 2 is placed at offset 6, where
    rounding 20/3 or 22/3 gives 7. *)
Lemma tick_offset_not_rounded :
  scale_hor short_scale = true /\
  scale_length short_scale = 10 /\
  lv_area_get_width (indic_area_of short_scale) = 11 /\
  line_cnt (ext short_scale) = 4 /\
  (exists ticks t,
     lv_linearscale_draw_scale short_scale = Ok ticks /\
     nth_error ticks 2 = Some t /\
     px (tick_p1 t) - x1 (indic_area_of short_scale) = 6) /\
  round_div (10 * 2) (4 - 1) = 7 /\ round_div (11 * 2) (4 - 1) = 7.
Proof.
  repeat split; try reflexivity.
  eexists. eexists. split; [vm_compute; reflexivity|]. split; reflexivity.
Qed.

(** C4 (amended): for every tick index [i] of a pass that runs to its end,
    over an indicator area whose end coordinates along the axis are
    [length >= 0] apart, the tick's offset from the start edge (the left edge
    when horizontal, the bottom edge when vertical) is
    [(length * i) / (line_cnt - 1)] rounded down. *)
Theorem tick_offset_floor (o : lv_obj_t) :
  render_safe o -> 0 <= scale_length o ->
  exists ticks,
    lv_linearscale_draw_scale o = Ok ticks /\
    List.length ticks = Z.to_nat (line_cnt (ext o)) /\
    forall (i : nat) (t : lv_tick_draw_t),
      nth_error ticks i = Some t ->
      let a := indic_area_of o in
      let off := (scale_length o * Z.of_nat i) / (line_cnt (ext o) - 1) in
      if scale_hor o
      then px (tick_p1 t) - x1 a = off
      else y2 a - py (tick_p1 t) = off.
Proof.
  intros Hs Hlen0.
  destruct (draw_scale_ok o Hs) as (ticks & Hd & _ & Hlen & Hf).
  exists ticks. split; [exact Hd|]. split; [exact Hlen|].
  intros i t Hi a off.
  assert (Hi' : (i < List.length ticks)%nat)
    by (apply nth_error_Some; rewrite Hi; discriminate).
  destruct Hs as (_ & Hn & _).
  pose proof (tf_along _ _ _ _ (Hf i t Hi)) as Ha. cbv zeta in Ha.
  assert (Hq : Z.quot (scale_length o * Z.of_nat i) (line_cnt (ext o) - 1) = off).
  { unfold off. apply Z.quot_div_nonneg; nia. }
  rewrite Hq in Ha.
  assert (Hoff : 0 <= off <= scale_length o).
  { unfold off. split.
    - apply Z.div_pos; nia.
    - apply Z.div_le_upper_bound; nia. }
  unfold scale_length in Hoff. fold a in Ha, Hoff.
  assert (Hx1 : in_int16 (x1 a)) by apply to_int16_range.
  assert (Hx2 : in_int16 (x2 a)) by apply to_int16_range.
  assert (Hy1 : in_int16 (y1 a)) by apply to_int16_range.
  assert (Hy2 : in_int16 (y2 a)) by apply to_int16_range.
  unfold in_int16 in *.
  destruct (scale_hor o); destruct Ha as [Ha _]; rewrite Ha;
    rewrite to_int16_small by (unfold in_int16; lia); lia.
Qed.

Lemma tick_offset_floor_witness :
  exists ticks,
    lv_linearscale_draw_scale sample_scale = Ok ticks /\
    List.length ticks = 26%nat /\
    forall (i : nat) (t : lv_tick_draw_t),
      nth_error ticks i = Some t ->
      px (tick_p1 t) - 0 = (149 * Z.of_nat i) / 25.
Proof.
  assert (Hlen : 0 <= scale_length sample_scale) by discriminate.
  exact (tick_offset_floor sample_scale sample_scale_safe Hlen).
Defined.

(** ** Fill level, major ticks and labels *)

Lemma nth_error_index {A : Type} (l : list A) (i : nat) (x : A) :
  nth_error l i = Some x -> (i < List.length l)%nat.
Proof.
  intros H. apply nth_error_Some. rewrite H. discriminate.
Qed.

(** C5 (code bug): the fill level the claim states,
    [(cur_value - min_value) * line_cnt / (max_value - min_value)] rounded
    down, is what the code computes in [int32_t], but it stores it in an
    [int16_t] although [line_cnt] is a [uint16_t].  After
    [set_scale(40000, 2)] and [set_value(100)] on the default range the
    quotient is 40000, the stored level is -25536, and tick 0, which lies
    below 40000, is drawn in the end colour and the end width, not in the
    gradient blend. *)
Lemma fill_level_wraps_for_40000_ticks :
  reachable dense_scale /\
  max_value (ext dense_scale) <> min_value (ext dense_scale) /\
  (cur_value (ext dense_scale) - min_value (ext dense_scale)) * line_cnt (ext dense_scale)
    / (max_value (ext dense_scale) - min_value (ext dense_scale)) = 40000 /\
  scale_level (ext dense_scale) = Ok (- 25536) /\
  exists ticks t,
    lv_linearscale_draw_scale dense_scale = Ok ticks /\
    nth_error ticks 0 = Some t /\
    dsc_color (tick_line_dsc t) = scale_end_color (style dense_scale) /\
    dsc_width (tick_line_dsc t) = scale_end_line_width (style dense_scale) /\
    dsc_color (tick_line_dsc t) <>
      lv_color_mix (scale_grad_color (style dense_scale)) (line_color (style dense_scale))
                   (255 * 0 / line_cnt (ext dense_scale)).
Proof.
  split; [exact dense_scale_reachable|].
  split; [discriminate|]. split; [reflexivity|]. split; [reflexivity|].
  destruct (draw_scale_ok dense_scale dense_scale_safe) as (ticks & Hd & _ & Hlen & Hf).
  destruct ticks as [| t ticks]; [discriminate Hlen|].
  exists (t :: ticks), t. split; [exact Hd|]. split; [reflexivity|].
  destruct (tf_beyond _ _ _ _ (Hf 0%nat t eq_refl)) as [Hc Hw]; [vm_compute; discriminate|].
  split; [exact Hc|]. split; [exact Hw|].
  rewrite Hc. discriminate.
Qed.

(** X22: in a pass that runs to its end, with the stored value inside the
    range or on the minimum, whenever the quotient
    [(cur_value - min_value) * line_cnt / (max_value - min_value)] rounded
    down is at most 32767 the stored level is that quotient; every tick at
    or beyond it is drawn with the end colour and the end line width, every
    tick below it with the gradient blend.  For the range 0..100, 26 ticks
    and the value 50 the level is 13. *)
Theorem fill_level_splits_ticks :
  (forall o : lv_obj_t,
     render_safe o ->
     min_value (ext o) <= cur_value (ext o) <= max_value (ext o)
       \/ cur_value (ext o) = min_value (ext o) ->
     (cur_value (ext o) - min_value (ext o)) * line_cnt (ext o)
       / (max_value (ext o) - min_value (ext o)) <= 32767 ->
     let e := ext o in
     let level := (cur_value e - min_value e) * line_cnt e / (max_value e - min_value e) in
     exists ticks,
       lv_linearscale_draw_scale o = Ok ticks /\
       scale_level e = Ok level /\
       List.length ticks = Z.to_nat (line_cnt e) /\
       forall (i : nat) (t : lv_tick_draw_t),
         nth_error ticks i = Some t ->
         (level <= Z.of_nat i ->
          dsc_color (tick_line_dsc t) = scale_end_color (style o) /\
          dsc_width (tick_line_dsc t) = scale_end_line_width (style o)) /\
         (Z.of_nat i < level ->
          dsc_color (tick_line_dsc t) =
            lv_color_mix (scale_grad_color (style o)) (line_color (style o))
                         (255 * Z.of_nat i / line_cnt e))) /\
  (forall (label_cnt' : Z) (a : lv_linearscale_align_t)
          (cb : option lv_linearscale_format_cb_t),
     scale_level (mk_ext 26 label_cnt' 50 0 100 a cb) = Ok 13).
Proof.
  split; [| reflexivity].
  intros o Hs Hv Hmax e level.
  destruct (draw_scale_ok o Hs) as (ticks & Hd & Hl & Hlen & Hf).
  pose proof Hs as ((Hne & _) & Hn & _). fold e in Hne, Hn, Hl, Hlen, Hv, Hmax.
  fold level in Hmax.
  assert (Hq : level_quot e = level /\ 0 <= level).
  { unfold level_quot, level. destruct Hv as [Hv | Hv].
    - split; [apply Z.quot_div_nonneg; nia | apply Z.div_pos; nia].
    - rewrite Hv, Z.sub_diag, Z.mul_0_l.
      rewrite Z.quot_0_l, Z.div_0_l by lia. split; [reflexivity | lia]. }
  destruct Hq as [Hq Hb].
  assert (H16 : to_int16 (level_quot e) = level).
  { rewrite Hq. apply to_int16_small. unfold in_int16. lia. }
  rewrite H16 in Hl.
  exists ticks. split; [exact Hd|]. split; [exact Hl|]. split; [exact Hlen|].
  intros i t Hi. pose proof (Hf i t Hi) as F. fold e in F. rewrite H16 in F.
  split.
  - exact (tf_beyond _ _ _ _ F).
  - intros Hlt. rewrite (tf_below _ _ _ _ F Hlt). fold e.
    pose proof (nth_error_index _ _ _ Hi) as Hi'. rewrite Hlen in Hi'.
    f_equal. apply Z.quot_div_nonneg; lia.
Qed.

Lemma fill_level_splits_ticks_witness :
  (let o := lv_linearscale_set_value sample_scale 50 in
   exists ticks,
     lv_linearscale_draw_scale o = Ok ticks /\
     scale_level (ext o) = Ok 13 /\
     List.length ticks = 26%nat /\
     forall (i : nat) (t : lv_tick_draw_t),
       nth_error ticks i = Some t ->
       (13 <= Z.of_nat i ->
        dsc_color (tick_line_dsc t) = mk_color 128 128 128 /\
        dsc_width (tick_line_dsc t) = 1) /\
       (Z.of_nat i < 13 ->
        dsc_color (tick_line_dsc t) =
          lv_color_mix (mk_color 0 0 255) (mk_color 255 0 0) (255 * Z.of_nat i / 26))) /\
  (let o := lv_linearscale_set_value (lv_linearscale_set_scale sample_scale 40000 2) 50 in
   exists ticks,
     lv_linearscale_draw_scale o = Ok ticks /\
     scale_level (ext o) = Ok 20000) /\
  (let o := lv_linearscale_set_range sample_scale 80 20 in
   exists ticks,
     lv_linearscale_draw_scale o = Ok ticks /\
     scale_level (ext o) = Ok 0).
Proof.
  split; [| split]; cbv zeta.
  - assert (Hs : render_safe (lv_linearscale_set_value sample_scale 50)) by prove_safe.
    assert (Hv : min_value (ext (lv_linearscale_set_value sample_scale 50))
                 <= cur_value (ext (lv_linearscale_set_value sample_scale 50))
                 <= max_value (ext (lv_linearscale_set_value sample_scale 50))
                 \/ cur_value (ext (lv_linearscale_set_value sample_scale 50))
                    = min_value (ext (lv_linearscale_set_value sample_scale 50)))
      by (left; split; discriminate).
    assert (Hn : (cur_value (ext (lv_linearscale_set_value sample_scale 50))
                  - min_value (ext (lv_linearscale_set_value sample_scale 50)))
                 * line_cnt (ext (lv_linearscale_set_value sample_scale 50))
                 / (max_value (ext (lv_linearscale_set_value sample_scale 50))
                    - min_value (ext (lv_linearscale_set_value sample_scale 50))) <= 32767)
      by discriminate.
    exact (proj1 fill_level_splits_ticks (lv_linearscale_set_value sample_scale 50) Hs Hv Hn).
  - set (o := lv_linearscale_set_value (lv_linearscale_set_scale sample_scale 40000 2) 50).
    assert (Hs : render_safe o) by prove_safe.
    assert (Hv : min_value (ext o) <= cur_value (ext o) <= max_value (ext o)
                 \/ cur_value (ext o) = min_value (ext o))
      by (left; split; discriminate).
    assert (Hn : (cur_value (ext o) - min_value (ext o)) * line_cnt (ext o)
                 / (max_value (ext o) - min_value (ext o)) <= 32767)
      by discriminate.
    destruct (proj1 fill_level_splits_ticks o Hs Hv Hn) as (ticks & Hd & Hl & _).
    exists ticks. split; [exact Hd | exact Hl].
  - set (o := lv_linearscale_set_range sample_scale 80 20).
    assert (Hs : render_safe o) by prove_safe.
    assert (Hv : min_value (ext o) <= cur_value (ext o) <= max_value (ext o)
                 \/ cur_value (ext o) = min_value (ext o))
      by (right; reflexivity).
    assert (Hn : (cur_value (ext o) - min_value (ext o)) * line_cnt (ext o)
                 / (max_value (ext o) - min_value (ext o)) <= 32767)
      by discriminate.
    destruct (proj1 fill_level_splits_ticks o Hs Hv Hn) as (ticks & Hd & Hl & _).
    exists ticks. split; [exact Hd | exact Hl].
Defined.

(** C6 (code bug): the step between major ticks the claim states,
    [line_cnt / (label_cnt - 1)] rounded down, is stored in an [int16_t]
    although [line_cnt] is a [uint16_t].  After [set_scale(40000, 2)] the
    step is 40000, the stored step is -25536, and tick 25536 is drawn as a
    major tick, of full thickness and with a label, although 25536 is not a
    multiple of 40000. *)
Lemma major_step_wraps_for_40000_ticks :
  reachable dense_scale /\
  1 < label_cnt (ext dense_scale) /\
  line_cnt (ext dense_scale) / (label_cnt (ext dense_scale) - 1) = 40000 /\
  scale_label_counter (ext dense_scale) = - 25536 /\
  25536 mod 40000 <> 0 /\
  exists ticks t l,
    lv_linearscale_draw_scale dense_scale = Ok ticks /\
    nth_error ticks (Z.to_nat 25536) = Some t /\
    tick_minor t = false /\
    tick_width t = scale_width (style dense_scale) /\
    tick_label t = Some l.
Proof.
  split; [exact dense_scale_reachable|].
  split; [reflexivity|]. split; [reflexivity|]. split; [reflexivity|].
  split; [discriminate|].
  destruct (draw_scale_ok dense_scale dense_scale_safe) as (ticks & Hd & _ & Hlen & Hf).
  destruct (nth_error ticks (Z.to_nat 25536)) as [t |] eqn:Ht.
  - pose proof (Hf _ t Ht) as F. rewrite Z2Nat.id in F by lia.
    assert (Hm : tick_minor t = false) by (rewrite (tf_minor _ _ _ _ F); reflexivity).
    destruct (tf_label _ _ _ _ F Hm) as (l & Hl & _).
    exists ticks, t, l. repeat split; auto.
    rewrite (tf_width _ _ _ _ F), Hm. reflexivity.
  - apply nth_error_None in Ht. rewrite Hlen in Ht.
    apply Z2Nat.inj_le in Ht; [| discriminate | discriminate].
    exfalso. revert Ht. change (line_cnt (ext dense_scale)) with 40000. lia.
Qed.

(** X23: when [label_cnt > 1], the step [line_cnt / (label_cnt - 1)]
    (rounded down) lies between 1 and 32767, and the pass runs to its end,
    tick [i] is major (it gets a label and the full tick thickness) if and
    only if [i] is a multiple of the step, and a minor tick gets half the
    tick thickness (the integer quotient by 2); with 26 ticks and 6 labels
    the major ticks are exactly 0, 5, 10, 15, 20, 25. *)
Theorem major_ticks_every_step :
  (forall o : lv_obj_t,
     render_safe o ->
     line_cnt (ext o) / (label_cnt (ext o) - 1) <= 32767 ->
     let step := line_cnt (ext o) / (label_cnt (ext o) - 1) in
     1 <= step /\
     exists ticks,
       lv_linearscale_draw_scale o = Ok ticks /\
       List.length ticks = Z.to_nat (line_cnt (ext o)) /\
       forall (i : nat) (t : lv_tick_draw_t),
         nth_error ticks i = Some t ->
         (tick_minor t = false <-> Z.of_nat i mod step = 0) /\
         (tick_label t <> None <-> Z.of_nat i mod step = 0) /\
         tick_width t = (if Z.of_nat i mod step =? 0 then scale_width (style o)
                         else Z.quot (scale_width (style o)) 2)) /\
  (forall e : lv_linearscale_ext_t,
     line_cnt e = 26 -> label_cnt e = 6 ->
     forall i : Z, 0 <= i < 26 ->
       (Z.rem i (scale_label_counter e) = 0 <-> In i [0; 5; 10; 15; 20; 25])).
Proof.
  split.
  - intros o Hs H16 step.
    destruct (draw_scale_ok o Hs) as (ticks & Hd & _ & Hlen & Hf).
    pose proof Hs as (_ & Hn & Hl & Hle & _).
    assert (Hstep : 1 <= step) by (apply Z.div_le_lower_bound; lia).
    assert (Hlc : scale_label_counter (ext o) = step).
    { unfold scale_label_counter. rewrite Z.gtb_ltb.
      destruct (Z.ltb_spec 1 (label_cnt (ext o))); [| lia].
      rewrite Z.quot_div_nonneg by lia. apply to_int16_small. unfold in_int16.
      fold step. lia. }
    split; [exact Hstep|].
    exists ticks. split; [exact Hd|]. split; [exact Hlen|].
    intros i t Hi. pose proof (Hf i t Hi) as F.
    pose proof (tf_minor _ _ _ _ F) as Hm. rewrite Hlc in Hm.
    rewrite Z.rem_mod_nonneg in Hm by lia.
    pose proof (tf_width _ _ _ _ F) as Hw.
    pose proof (tf_no_label _ _ _ _ F) as Hnl.
    pose proof (tf_label _ _ _ _ F) as Hlb.
    destruct (Z.eqb_spec (Z.of_nat i mod step) 0) as [E | E]; simpl in Hm;
      rewrite Hm in Hw.
    + split; [tauto|]. split; [| exact Hw].
      destruct (Hlb Hm) as (l & Hl' & _). rewrite Hl'. split; [tauto | discriminate].
    + split; [split; [rewrite Hm; discriminate | contradiction]|].
      split; [| exact Hw].
      rewrite (Hnl Hm). split; [intros H; now elim H | contradiction].
  - intros e Hn Hl i Hi. unfold scale_label_counter. rewrite Hn, Hl.
    change (to_int16 (Z.quot 26 (6 - 1))) with 5. cbn [Z.gtb Z.compare Pos.compare Pos.compare_cont].
    assert (Hc : i = 0 \/ i = 1 \/ i = 2 \/ i = 3 \/ i = 4 \/ i = 5 \/ i = 6 \/ i = 7 \/
                 i = 8 \/ i = 9 \/ i = 10 \/ i = 11 \/ i = 12 \/ i = 13 \/ i = 14 \/
                 i = 15 \/ i = 16 \/ i = 17 \/ i = 18 \/ i = 19 \/ i = 20 \/ i = 21 \/
                 i = 22 \/ i = 23 \/ i = 24 \/ i = 25) by lia.
    repeat (destruct Hc as [-> | Hc]); try subst i;
      (split; [intros H; vm_compute in H; first [discriminate H | simpl; tauto]
              | intros H; simpl in H; first [reflexivity | exfalso; lia]]).
Qed.

Lemma major_ticks_every_step_witness :
  exists ticks,
    lv_linearscale_draw_scale sample_scale = Ok ticks /\
    List.length ticks = 26%nat /\
    forall (i : nat) (t : lv_tick_draw_t),
      nth_error ticks i = Some t ->
      (tick_minor t = false <-> Z.of_nat i mod 5 = 0) /\
      (tick_label t <> None <-> Z.of_nat i mod 5 = 0) /\
      tick_width t = (if Z.of_nat i mod 5 =? 0 then 10 else 5).
Proof.
  assert (H16 : line_cnt (ext sample_scale) / (label_cnt (ext sample_scale) - 1) <= 32767)
    by discriminate.
  exact (proj2 (proj1 major_ticks_every_step sample_scale sample_scale_safe H16)).
Defined.

(** C7, as the spec words it, fails: the label value is the quotient cut
    off, not rounded.  With four ticks, all of them major, over the range
    0..10, tick 2 is labelled 6, where rounding 20/3 gives 7. *)
Lemma label_value_not_rounded :
  line_cnt (ext short_scale) = 4 /\
  min_value (ext short_scale) = 0 /\ max_value (ext short_scale) = 10 /\
  (exists ticks t l,
     lv_linearscale_draw_scale short_scale = Ok ticks /\
     nth_error ticks 2 = Some t /\
     tick_label t = Some l /\
     scale_act l = 6) /\
  round_div ((10 - 0) * 2) (4 - 1) + 0 = 7.
Proof.
  repeat split; try reflexivity.
  eexists. eexists. eexists.
  split; [vm_compute; reflexivity|]. repeat split; reflexivity.
Qed.

(** C7 (amended): for every major tick index [i] of a pass that runs to its
    end, the label value is [(max_value - min_value) * i / (line_cnt - 1)]
    cut off toward zero (rounded down when the bounds are in order), plus
    [min_value]; the stored current value does not enter it.  For the range
    0..100 and 26 ticks the label at index 0 reads 0 and the label at index
    25 reads 100. *)
Theorem label_value_by_index :
  (forall o : lv_obj_t,
     render_safe o ->
     exists ticks,
       lv_linearscale_draw_scale o = Ok ticks /\
       List.length ticks = Z.to_nat (line_cnt (ext o)) /\
       forall (i : nat) (t : lv_tick_draw_t) (l : lv_label_draw_t),
         nth_error ticks i = Some t ->
         tick_label t = Some l ->
         tick_minor t = false /\
         scale_act l =
           Z.quot ((max_value (ext o) - min_value (ext o)) * Z.of_nat i)
                  (line_cnt (ext o) - 1) + min_value (ext o) /\
         (min_value (ext o) <= max_value (ext o) ->
          scale_act l =
            (max_value (ext o) - min_value (ext o)) * Z.of_nat i
              / (line_cnt (ext o) - 1) + min_value (ext o))) /\
  (forall (label_cnt' cur : Z) (a : lv_linearscale_align_t)
          (cb : option lv_linearscale_format_cb_t),
     label_value (mk_ext 26 label_cnt' cur 0 100 a cb) 0 = Ok 0 /\
     label_value (mk_ext 26 label_cnt' cur 0 100 a cb) 25 = Ok 100).
Proof.
  split; [| intros; split; reflexivity].
  intros o Hs.
  destruct (draw_scale_ok o Hs) as (ticks & Hd & _ & Hlen & Hf).
  pose proof Hs as (_ & Hn & _).
  exists ticks. split; [exact Hd|]. split; [exact Hlen|].
  intros i t l Hi Hl. pose proof (Hf i t Hi) as F.
  assert (Hm : tick_minor t = false).
  { destruct (tick_minor t) eqn:E; [| reflexivity].
    rewrite (tf_no_label _ _ _ _ F E) in Hl. discriminate. }
  destruct (tf_label _ _ _ _ F Hm) as (l' & Hl' & Hact & _).
  assert (l' = l) by congruence. subst l'.
  split; [exact Hm|]. split; [exact Hact|].
  intros Hle. rewrite Hact. f_equal. apply Z.quot_div_nonneg; nia.
Qed.

Lemma label_value_by_index_witness :
  exists ticks,
    lv_linearscale_draw_scale sample_scale = Ok ticks /\
    List.length ticks = 26%nat /\
    forall (i : nat) (t : lv_tick_draw_t) (l : lv_label_draw_t),
      nth_error ticks i = Some t ->
      tick_label t = Some l ->
      tick_minor t = false /\
      scale_act l = Z.quot ((100 - 0) * Z.of_nat i) 25 + 0 /\
      (0 <= 100 -> scale_act l = (100 - 0) * Z.of_nat i / 25 + 0).
Proof.
  exact (proj1 label_value_by_index sample_scale sample_scale_safe).
Defined.

(** ** The gradient *)

Lemma mix_channel_zero (c1 c2 : Z) : mix_channel c1 c2 0 = c1.
Proof.
  unfold mix_channel. rewrite Z.mul_0_r, Z.add_0_r, Z.sub_0_r. apply Z.div_mul. lia.
Qed.

Lemma lv_color_mix_zero (c1 c2 : lv_color_t) : lv_color_mix c1 c2 0 = c1.
Proof.
  unfold lv_color_mix. rewrite !mix_channel_zero. now destruct c1.
Qed.

(** A larger fraction brings a channel no farther from the second colour. *)
Lemma mix_channel_closer (c1 c2 m m' : Z) :
  0 <= m <= m' -> m' <= 255 ->
  Z.abs (mix_channel c1 c2 m' - c2) <= Z.abs (mix_channel c1 c2 m - c2).
Proof.
  intros Hm Hm'. unfold mix_channel.
  destruct (Z.le_gt_cases c1 c2) as [Hc | Hc].
  - assert ((c1 * (255 - m) + c2 * m) / 255 <= (c1 * (255 - m') + c2 * m') / 255)
      by (apply Z.div_le_mono; nia).
    assert ((c1 * (255 - m') + c2 * m') / 255 <= c2)
      by (apply Z.div_le_upper_bound; nia).
    lia.
  - assert ((c1 * (255 - m') + c2 * m') / 255 <= (c1 * (255 - m) + c2 * m) / 255)
      by (apply Z.div_le_mono; nia).
    assert (c2 <= (c1 * (255 - m') + c2 * m') / 255)
      by (apply Z.div_le_lower_bound; nia).
    lia.
Qed.

Lemma lv_color_mix_closer (c1 c2 : lv_color_t) (m m' : Z) :
  0 <= m <= m' -> m' <= 255 ->
  color_dist (lv_color_mix c1 c2 m') c2 <= color_dist (lv_color_mix c1 c2 m) c2.
Proof.
  intros Hm Hm'. unfold color_dist, lv_color_mix. cbn [ch_red ch_green ch_blue].
  pose proof (mix_channel_closer (ch_red c1) (ch_red c2) m m' Hm Hm').
  pose proof (mix_channel_closer (ch_green c1) (ch_green c2) m m' Hm Hm').
  pose proof (mix_channel_closer (ch_blue c1) (ch_blue c2) m m' Hm Hm').
  lia.
Qed.

(** C8: in a pass that runs to its end, a tick below the fill level is drawn
    in the blend of the gradient colour toward the main colour with the
    fraction [(255 * i) / line_cnt]; at index 0 this is the gradient colour
    itself, and from one index to a later one the colour gets no farther
    from the main colour. *)
Theorem gradient_below_level (o : lv_obj_t) :
  render_safe o ->
  exists ticks level,
    lv_linearscale_draw_scale o = Ok ticks /\
    scale_level (ext o) = Ok level /\
    List.length ticks = Z.to_nat (line_cnt (ext o)) /\
    (forall (i : nat) (t : lv_tick_draw_t),
       nth_error ticks i = Some t -> Z.of_nat i < level ->
       0 <= 255 * Z.of_nat i / line_cnt (ext o) < 255 /\
       dsc_color (tick_line_dsc t) =
         lv_color_mix (scale_grad_color (style o)) (line_color (style o))
                      (255 * Z.of_nat i / line_cnt (ext o))) /\
    (forall t : lv_tick_draw_t,
       nth_error ticks 0 = Some t -> 0 < level ->
       dsc_color (tick_line_dsc t) = scale_grad_color (style o)) /\
    (forall (i j : nat) (ti tj : lv_tick_draw_t),
       nth_error ticks i = Some ti -> nth_error ticks j = Some tj ->
       (i <= j)%nat -> Z.of_nat j < level ->
       color_dist (dsc_color (tick_line_dsc tj)) (line_color (style o))
         <= color_dist (dsc_color (tick_line_dsc ti)) (line_color (style o))).
Proof.
  intros Hs.
  destruct (draw_scale_ok o Hs) as (ticks & Hd & Hl & Hlen & Hf).
  pose proof Hs as (_ & Hn & _).
  exists ticks, (to_int16 (level_quot (ext o))).
  split; [exact Hd|]. split; [exact Hl|]. split; [exact Hlen|].
  assert (Hbelow : forall (i : nat) (t : lv_tick_draw_t),
             nth_error ticks i = Some t -> Z.of_nat i < to_int16 (level_quot (ext o)) ->
             0 <= 255 * Z.of_nat i / line_cnt (ext o) < 255 /\
             dsc_color (tick_line_dsc t) =
               lv_color_mix (scale_grad_color (style o)) (line_color (style o))
                            (255 * Z.of_nat i / line_cnt (ext o))).
  { intros i t Hi Hlt.
    pose proof (nth_error_index _ _ _ Hi) as Hi'. rewrite Hlen in Hi'.
    assert (Hr : 0 <= Z.of_nat i < line_cnt (ext o)) by lia.
    pose proof (mix_ratio_bounds _ _ Hr) as Hb.
    rewrite Z.quot_div_nonneg in Hb by lia.
    split; [exact Hb|].
    rewrite (tf_below _ _ _ _ (Hf i t Hi) Hlt).
    f_equal. apply Z.quot_div_nonneg; lia. }
  split; [exact Hbelow|]. split.
  - intros t Ht Hlt. destruct (Hbelow 0%nat t Ht Hlt) as [_ Hc].
    rewrite Hc. change (255 * Z.of_nat 0) with 0. rewrite Z.div_0_l by lia.
    apply lv_color_mix_zero.
  - intros i j ti tj Hi Hj Hij Hlt.
    destruct (Hbelow i ti Hi ltac:(lia)) as [Hbi Hci].
    destruct (Hbelow j tj Hj Hlt) as [Hbj Hcj].
    rewrite Hci, Hcj. apply lv_color_mix_closer; [| lia].
    split; [lia|]. apply Z.div_le_mono; lia.
Qed.

Lemma gradient_below_level_witness :
  let o := lv_linearscale_set_value sample_scale 50 in
  exists ticks level,
    lv_linearscale_draw_scale o = Ok ticks /\
    scale_level (ext o) = Ok level /\
    List.length ticks = 26%nat /\
    (forall (i : nat) (t : lv_tick_draw_t),
       nth_error ticks i = Some t -> Z.of_nat i < level ->
       0 <= 255 * Z.of_nat i / 26 < 255 /\
       dsc_color (tick_line_dsc t) =
         lv_color_mix (mk_color 0 0 255) (mk_color 255 0 0) (255 * Z.of_nat i / 26)) /\
    (forall t : lv_tick_draw_t,
       nth_error ticks 0 = Some t -> 0 < level ->
       dsc_color (tick_line_dsc t) = mk_color 0 0 255) /\
    (forall (i j : nat) (ti tj : lv_tick_draw_t),
       nth_error ticks i = Some ti -> nth_error ticks j = Some tj ->
       (i <= j)%nat -> Z.of_nat j < level ->
       color_dist (dsc_color (tick_line_dsc tj)) (mk_color 255 0 0)
         <= color_dist (dsc_color (tick_line_dsc ti)) (mk_color 255 0 0)).
Proof.
  assert (Hs : render_safe (lv_linearscale_set_value sample_scale 50)) by prove_safe.
  exact (gradient_below_level (lv_linearscale_set_value sample_scale 50) Hs).
Defined.

(** ** No labels *)

(** C9: with [label_cnt <= 1] and more than one tick, the step between major
    ticks is left at zero and the first turn of the tick loop takes [i % 0]:
    once the level is computed, the render pass, entered directly or through
    the design callback, stops at the remainder by zero.  Nothing in the
    code treats [label_cnt <= 1] apart. *)
Theorem no_labels_remainder_by_zero (o : lv_obj_t) :
  level_safe (ext o) ->
  label_cnt (ext o) <= 1 ->
  1 < line_cnt (ext o) ->
  scale_label_counter (ext o) = 0 /\
  lv_linearscale_draw_scale o = Fault RemainderByZero /\
  lv_linearscale_design o LV_DESIGN_DRAW_MAIN = Fault RemainderByZero.
Proof.
  intros Hlev Hl Hn.
  assert (Hlc : scale_label_counter (ext o) = 0).
  { unfold scale_label_counter. rewrite Z.gtb_ltb.
    destruct (Z.ltb_spec 1 (label_cnt (ext o))); [lia | reflexivity]. }
  assert (Hd : lv_linearscale_draw_scale o = Fault RemainderByZero).
  { unfold lv_linearscale_draw_scale.
    rewrite (scale_level_ok _ Hlev). step_bind.
    rewrite Z.gtb_ltb. destruct (Z.ltb_spec 1 (line_cnt (ext o))); [| lia].
    destruct (Z.to_nat (line_cnt (ext o))) as [| fuel] eqn:E; [lia|].
    cbn [draw_ticks]. unfold draw_tick at 1. rewrite Hlc. reflexivity. }
  split; [exact Hlc|]. split; [exact Hd|].
  unfold lv_linearscale_design. rewrite Hd. reflexivity.
Qed.

Lemma no_labels_remainder_by_zero_witness :
  let o := lv_linearscale_set_scale sample_scale 26 1 in
  reachable o /\
  scale_label_counter (ext o) = 0 /\
  lv_linearscale_draw_scale o = Fault RemainderByZero /\
  lv_linearscale_design o LV_DESIGN_DRAW_MAIN = Fault RemainderByZero.
Proof.
  cbv zeta. split.
  - apply (reach_call (CallSetScale 26 1)), reach_create.
  - assert (Hlev : level_safe (ext (lv_linearscale_set_scale sample_scale 26 1)))
      by (unfold level_safe, in_int; vm_compute; repeat split; discriminate).
    assert (Hl : label_cnt (ext (lv_linearscale_set_scale sample_scale 26 1)) <= 1)
      by discriminate.
    assert (Hn : 1 < line_cnt (ext (lv_linearscale_set_scale sample_scale 26 1)))
      by reflexivity.
    exact (no_labels_remainder_by_zero (lv_linearscale_set_scale sample_scale 26 1) Hlev Hl Hn).
Defined.

(** The same stop for more labels than ticks allow: with 3 ticks and 6
    labels the step [3 / 5] is zero as well. *)
Example more_labels_than_ticks_remainder_by_zero :
  let o := lv_linearscale_set_scale sample_scale 3 6 in
  scale_label_counter (ext o) = 0 /\
  lv_linearscale_draw_scale o = Fault RemainderByZero.
Proof.
  split; reflexivity.
Qed.

(** ** Other stops of the pass *)

(** Equal bounds stop the pass at the division of the level. *)
Example equal_bounds_division_by_zero :
  let o := lv_linearscale_set_range sample_scale 7 7 in
  cur_value (ext o) = 7 /\
  lv_linearscale_draw_scale o = Fault DivisionByZero.
Proof.
  split; reflexivity.
Qed.

(** A wide range leaves the [int] range in the product of the level. *)
Example wide_range_overflows_level :
  let o := lv_linearscale_set_value
             (lv_linearscale_set_range sample_scale 0 2000000000) 2000000000 in
  reachable o /\
  value_in_range (ext o) /\
  scale_level (ext o) = Fault SignedOverflow.
Proof.
  split.
  - apply (reach_call (CallSetValue 2000000000)),
          (reach_call (CallSetRange 0 2000000000)), reach_create.
  - split; [split; intros; discriminate | reflexivity].
Qed.

(** * Further properties of the setters *)

Lemma run_call_line_cnt_nonzero (c : setter_call) (o : lv_obj_t) :
  line_cnt (ext o) <> 0 -> line_cnt (ext (run_call c o)) <> 0.
Proof.
  destruct o as [cs s [l n cur lo hi a f] k].
  destruct c; cbn [run_call]; setter_cases; auto.
Qed.

(** X1: no widget a program can hold has a tick count of zero: creation
    stores 26, a copy takes the count of its original, and
    [lv_linearscale_set_scale] returns before storing a zero. *)
Theorem reachable_line_cnt_nonzero (o : lv_obj_t) :
  reachable o -> lv_linearscale_get_line_count o <> 0.
Proof.
  unfold lv_linearscale_get_line_count.
  induction 1 as [base | base c _ IH | c o _ IH].
  - discriminate.
  - exact IH.
  - now apply run_call_line_cnt_nonzero.
Qed.

Lemma reachable_line_cnt_nonzero_witness :
  let o := lv_linearscale_set_scale (lv_linearscale_set_scale sample_scale 0 5) 12 0 in
  reachable o /\ lv_linearscale_get_line_count o <> 0.
Proof.
  cbv zeta.
  assert (Hr : reachable (lv_linearscale_set_scale (lv_linearscale_set_scale sample_scale 0 5) 12 0))
    by (apply (reach_call (CallSetScale 12 0)), (reach_call (CallSetScale 0 5)), reach_create).
  split; [exact Hr|].
  exact (reachable_line_cnt_nonzero _ Hr).
Defined.

(** X2: on a widget whose value lies in its range and whose bounds are in
    order, [lv_linearscale_set_value(v)] leaves [v] clamped into the range
    as the value and does not touch the bounds. *)
Theorem set_value_stores_clamp (o : lv_obj_t) (v : Z) :
  value_in_range (ext o) ->
  min_value (ext o) <= max_value (ext o) ->
  let o' := lv_linearscale_set_value o v in
  lv_linearscale_get_value o' = clamp (min_value (ext o)) (max_value (ext o)) v /\
  lv_linearscale_get_min_value o' = lv_linearscale_get_min_value o /\
  lv_linearscale_get_max_value o' = lv_linearscale_get_max_value o.
Proof.
  intros Hv Hle o'. subst o'.
  unfold lv_linearscale_get_value, lv_linearscale_get_min_value, lv_linearscale_get_max_value.
  destruct o as [cs s [l n cur lo hi a f] k].
  setter_cases; repeat split; lia.
Qed.

Lemma set_value_stores_clamp_witness :
  lv_linearscale_get_value (lv_linearscale_set_value sample_scale (- 7)) = 0 /\
  lv_linearscale_get_value (lv_linearscale_set_value sample_scale 250) = 100 /\
  lv_linearscale_get_value (lv_linearscale_set_value sample_scale 42) = 42.
Proof.
  assert (Hv : value_in_range (ext sample_scale)) by (split; intros; discriminate).
  assert (Hle : min_value (ext sample_scale) <= max_value (ext sample_scale)) by discriminate.
  split; [| split].
  - exact (proj1 (set_value_stores_clamp sample_scale (- 7) Hv Hle)).
  - exact (proj1 (set_value_stores_clamp sample_scale 250 Hv Hle)).
  - exact (proj1 (set_value_stores_clamp sample_scale 42 Hv Hle)).
Defined.

(** X3: on a widget whose value lies in its range,
    [lv_linearscale_set_range(lo, hi)] with [lo <= hi] stores both bounds
    and leaves the old value clamped into the new range. *)
Theorem set_range_stores_bounds_and_clamps (o : lv_obj_t) (lo hi : Z) :
  value_in_range (ext o) ->
  lo <= hi ->
  let o' := lv_linearscale_set_range o lo hi in
  lv_linearscale_get_min_value o' = lo /\
  lv_linearscale_get_max_value o' = hi /\
  lv_linearscale_get_value o' = clamp lo hi (lv_linearscale_get_value o).
Proof.
  intros Hv Hle o'. subst o'.
  unfold lv_linearscale_get_value, lv_linearscale_get_min_value, lv_linearscale_get_max_value.
  destruct o as [cs s [l n cur lo0 hi0 a f] k].
  setter_cases; repeat split; lia.
Qed.

Lemma set_range_stores_bounds_and_clamps_witness :
  let o := lv_linearscale_set_value sample_scale 30 in
  let o' := lv_linearscale_set_range o 40 60 in
  lv_linearscale_get_min_value o' = 40 /\
  lv_linearscale_get_max_value o' = 60 /\
  lv_linearscale_get_value o' = 40.
Proof.
  assert (Hv : value_in_range (ext (lv_linearscale_set_value sample_scale 30)))
    by (split; intros; discriminate).
  assert (Hle : 40 <= 60) by discriminate.
  exact (set_range_stores_bounds_and_clamps (lv_linearscale_set_value sample_scale 30) 40 60 Hv Hle).
Defined.

Lemma run_call_inverted_value (c : setter_call) (o : lv_obj_t) :
  (max_value (ext o) < min_value (ext o) -> cur_value (ext o) = min_value (ext o)) ->
  max_value (ext (run_call c o)) < min_value (ext (run_call c o)) ->
  cur_value (ext (run_call c o)) = min_value (ext (run_call c o)).
Proof.
  destruct o as [cs s [l n cur lo hi a f] k].
  destruct c; cbn [run_call]; setter_cases; intros; lia.
Qed.

(** X4: on every widget a program can hold whose maximum is below its
    minimum, the stored value is the minimum. *)
Theorem reachable_inverted_value_is_min (o : lv_obj_t) :
  reachable o ->
  lv_linearscale_get_max_value o < lv_linearscale_get_min_value o ->
  lv_linearscale_get_value o = lv_linearscale_get_min_value o.
Proof.
  unfold lv_linearscale_get_value, lv_linearscale_get_min_value, lv_linearscale_get_max_value.
  induction 1 as [base | base c _ IH | c o _ IH].
  - cbn. lia.
  - exact IH.
  - now apply run_call_inverted_value.
Qed.

Lemma reachable_inverted_value_is_min_witness :
  let o := lv_linearscale_set_value (lv_linearscale_set_range sample_scale 80 20) 50 in
  reachable o /\ lv_linearscale_get_value o = 80.
Proof.
  cbv zeta.
  assert (Hr : reachable (lv_linearscale_set_value (lv_linearscale_set_range sample_scale 80 20) 50))
    by (apply (reach_call (CallSetValue 50)), (reach_call (CallSetRange 80 20)), reach_create).
  assert (Hlt : lv_linearscale_get_max_value
                  (lv_linearscale_set_value (lv_linearscale_set_range sample_scale 80 20) 50)
                < lv_linearscale_get_min_value
                  (lv_linearscale_set_value (lv_linearscale_set_range sample_scale 80 20) 50))
    by reflexivity.
  split; [exact Hr|].
  exact (reachable_inverted_value_is_min _ Hr Hlt).
Defined.

Lemma set_range_at_bounds (o : lv_obj_t) (lo hi : Z) :
  min_value (ext o) = lo -> max_value (ext o) = hi ->
  lv_linearscale_set_range o lo hi = o.
Proof.
  intros <- <-. unfold lv_linearscale_set_range. now rewrite !Z.eqb_refl.
Qed.

Lemma set_range_bounds (o : lv_obj_t) (lo hi : Z) :
  min_value (ext (lv_linearscale_set_range o lo hi)) = lo /\
  max_value (ext (lv_linearscale_set_range o lo hi)) = hi.
Proof.
  destruct o as [cs s [l n cur lo0 hi0 a f] k].
  setter_cases; split; congruence.
Qed.

Lemma set_scale_counts (o : lv_obj_t) (l n : Z) :
  l = 0 \/
  (line_cnt (ext (lv_linearscale_set_scale o l n)) = l /\
   label_cnt (ext (lv_linearscale_set_scale o l n)) = n).
Proof.
  destruct o as [cs s [l0 n0 cur lo hi a f] k].
  setter_cases; auto.
Qed.

Lemma set_scale_at_counts (o : lv_obj_t) (l n : Z) :
  l = 0 \/ (line_cnt (ext o) = l /\ label_cnt (ext o) = n) ->
  lv_linearscale_set_scale o l n = o.
Proof.
  unfold lv_linearscale_set_scale. intros [-> | [<- <-]]; [reflexivity|].
  rewrite !Z.eqb_refl. now destruct (line_cnt (ext o) =? 0).
Qed.

Lemma set_alignment_at_dir (o : lv_obj_t) (d : lv_linearscale_align_t) :
  align (ext o) = d -> lv_linearscale_set_alignment o d = o.
Proof.
  intros <-. unfold lv_linearscale_set_alignment. now rewrite Z.eqb_refl.
Qed.

Lemma set_alignment_dir (o : lv_obj_t) (d : lv_linearscale_align_t) :
  align (ext (lv_linearscale_set_alignment o d)) = d.
Proof.
  destruct o as [cs s [l n cur lo hi a f] k].
  setter_cases; congruence.
Qed.

(** What [lv_linearscale_set_value] leaves in the extended data. *)
Lemma set_value_ext (o : lv_obj_t) (v : Z) :
  ext (lv_linearscale_set_value o v)
  = set_cur_value (ext o)
      (if cur_value (ext o) =? v then v
       else Z.max (min_value (ext o)) (Z.min (max_value (ext o)) v)).
Proof.
  destruct o as [cs s [l n cur lo hi a f] k].
  setter_cases; f_equal; lia.
Qed.

(** X5: repeating [lv_linearscale_set_range], [lv_linearscale_set_scale]
    or [lv_linearscale_set_alignment] with the arguments just given
    returns the widget as it is, redraw count included; repeating
    [lv_linearscale_set_value] leaves the extended data as it is. *)
Theorem setters_repeat_is_noop (o : lv_obj_t) :
  (forall lo hi : Z,
     lv_linearscale_set_range (lv_linearscale_set_range o lo hi) lo hi
     = lv_linearscale_set_range o lo hi) /\
  (forall l n : Z,
     lv_linearscale_set_scale (lv_linearscale_set_scale o l n) l n
     = lv_linearscale_set_scale o l n) /\
  (forall d : lv_linearscale_align_t,
     lv_linearscale_set_alignment (lv_linearscale_set_alignment o d) d
     = lv_linearscale_set_alignment o d) /\
  (forall v : Z,
     ext (lv_linearscale_set_value (lv_linearscale_set_value o v) v)
     = ext (lv_linearscale_set_value o v)).
Proof.
  split; [| split; [| split]].
  - intros lo hi. destruct (set_range_bounds o lo hi) as [Hlo Hhi].
    now apply set_range_at_bounds.
  - intros l n. apply set_scale_at_counts. apply set_scale_counts.
  - intros d. apply set_alignment_at_dir, set_alignment_dir.
  - intros v. rewrite (set_value_ext (lv_linearscale_set_value o v) v).
    rewrite (set_value_ext o v).
    destruct (ext o) as [l n cur lo hi a f].
    cbv [set_cur_value line_cnt label_cnt cur_value min_value max_value align format_cb].
    f_equal.
    destruct (Z.eqb_spec cur v) as [E | E].
    + now rewrite Z.eqb_refl.
    + destruct (Z.eqb_spec (Z.max lo (Z.min hi v)) v); lia.
Qed.

(** X6: a setter call never touches the coordinates or the style and
    issues at most one redraw request; a call other than setting the
    formatter that issues none has changed nothing at all, and setting the
    formatter never issues one. *)
Theorem run_call_redraw_accounting (c : setter_call) (o : lv_obj_t) :
  coords (run_call c o) = coords o /\
  style (run_call c o) = style o /\
  (invalidations (run_call c o) = invalidations o \/
   invalidations (run_call c o) = S (invalidations o)) /\
  match c with
  | CallSetFormatter cb =>
      invalidations (run_call c o) = invalidations o /\
      format_cb (ext (run_call c o)) = cb
  | _ =>
      invalidations (run_call c o) = invalidations o -> run_call c o = o
  end.
Proof.
  destruct o as [cs s [l n cur lo hi a f] k].
  destruct c; cbn [run_call]; setter_cases;
    repeat split; auto; intros; exfalso; lia.
Qed.

Lemma run_call_redraw_accounting_witness :
  run_call (CallSetValue 0) sample_scale = sample_scale /\
  run_call (CallSetRange 0 100) sample_scale = sample_scale /\
  run_call (CallSetScale 0 9) sample_scale = sample_scale.
Proof.
  split; [| split].
  - exact (proj2 (proj2 (proj2 (run_call_redraw_accounting (CallSetValue 0) sample_scale))) eq_refl).
  - exact (proj2 (proj2 (proj2 (run_call_redraw_accounting (CallSetRange 0 100) sample_scale))) eq_refl).
  - exact (proj2 (proj2 (proj2 (run_call_redraw_accounting (CallSetScale 0 9) sample_scale))) eq_refl).
Defined.

(** X7: [lv_linearscale_set_scale(l, n)] with [l <> 0] makes the getters
    answer [l] and [n]; with [l = 0] it returns the widget unchanged; in
    both cases value and bounds stay. *)
Theorem set_scale_stores_counts (o : lv_obj_t) (l n : Z) :
  (l <> 0 ->
   lv_linearscale_get_line_count (lv_linearscale_set_scale o l n) = l /\
   lv_linearscale_get_label_count (lv_linearscale_set_scale o l n) = n) /\
  (l = 0 -> lv_linearscale_set_scale o l n = o) /\
  lv_linearscale_get_value (lv_linearscale_set_scale o l n) = lv_linearscale_get_value o /\
  lv_linearscale_get_min_value (lv_linearscale_set_scale o l n) = lv_linearscale_get_min_value o /\
  lv_linearscale_get_max_value (lv_linearscale_set_scale o l n) = lv_linearscale_get_max_value o.
Proof.
  unfold lv_linearscale_get_line_count, lv_linearscale_get_label_count,
    lv_linearscale_get_value, lv_linearscale_get_min_value, lv_linearscale_get_max_value.
  destruct o as [cs s [l0 n0 cur lo hi a f] k].
  setter_cases; repeat split; intros; try reflexivity; try lia; try congruence.
Qed.

Lemma set_scale_stores_counts_witness :
  lv_linearscale_get_line_count (lv_linearscale_set_scale sample_scale 11 3) = 11 /\
  lv_linearscale_get_label_count (lv_linearscale_set_scale sample_scale 11 3) = 3 /\
  lv_linearscale_set_scale sample_scale 0 3 = sample_scale.
Proof.
  destruct (set_scale_stores_counts sample_scale 11 3) as (H1 & _).
  destruct (set_scale_stores_counts sample_scale 0 3) as (_ & H2 & _).
  destruct (H1 ltac:(discriminate)) as [Ha Hb].
  split; [exact Ha|]. split; [exact Hb|]. exact (H2 eq_refl).
Defined.

(** * Further properties of the render pass *)

(** ** How a turn of the loop is made up *)

Lemma bind_ok {A B : Type} (m : outcome A) (k : A -> outcome B) (b : B) :
  bind m k = Ok b -> exists a, m = Ok a /\ k a = Ok b.
Proof.
  destruct m as [a | f]; cbn; intros H; [exists a; auto | discriminate].
Qed.

Lemma draw_tick_inv (e : lv_linearscale_ext_t) (st : lv_style_t) (a : lv_area_t)
    (hor : bool) (level lc i : Z) (d d' : lv_draw_line_dsc_t) (t : lv_tick_draw_t) :
  draw_tick e st a hor level lc i d = Ok (t, d') ->
  lc <> 0 /\
  tick_minor t = negb (Z.rem i lc =? 0) /\
  tick_width t = (if tick_minor t then Z.quot (scale_width st) 2 else scale_width st) /\
  tick_points e a hor (tick_width t) i = Ok (tick_p1 t, tick_p2 t) /\
  tick_line_dsc t = tick_line e st level i d /\
  d' = tick_line e st level i d /\
  tick_label_of e st hor (tick_minor t) (tick_width t) i (tick_p1 t) (tick_p2 t)
    = Ok (tick_label t).
Proof.
  unfold draw_tick. intros H.
  apply bind_ok in H. destruct H as (r & Hr & H).
  apply bind_ok in H. destruct H as ([p1 p2] & Hp & H).
  apply bind_ok in H. destruct H as (lbl & Hl & H).
  injection H as <- <-. cbn [tick_minor tick_width tick_p1 tick_p2 tick_line_dsc tick_label].
  cbn [fst snd] in Hl.
  unfold int_rem in Hr. destruct (Z.eqb_spec lc 0); [discriminate|].
  destruct (in_intb (Z.quot i lc)); [| discriminate]. injection Hr as <-.
  repeat split; auto.
Qed.

(** A property of the ticks that follows from one of the line descriptor
    handed from turn to turn. *)
Lemma draw_ticks_inv
    (body : Z -> lv_draw_line_dsc_t -> outcome (lv_tick_draw_t * lv_draw_line_dsc_t))
    (I : Z -> lv_draw_line_dsc_t -> Prop) (P : Z -> lv_tick_draw_t -> Prop) :
  (forall k d t d', I k d -> body k d = Ok (t, d') -> P k t /\ I (k + 1) d') ->
  forall (fuel : nat) (i0 : Z) (d : lv_draw_line_dsc_t) (ts : list lv_tick_draw_t),
    I i0 d -> draw_ticks body fuel i0 d = Ok ts ->
    forall (k : nat) (t : lv_tick_draw_t), nth_error ts k = Some t -> P (i0 + Z.of_nat k) t.
Proof.
  intros Hstep. induction fuel as [| fuel IH]; intros i0 d ts HI H k t Hk.
  - cbn in H. injection H as <-. destruct k; discriminate.
  - cbn [draw_ticks] in H.
    apply bind_ok in H. destruct H as ([t0 d0] & Hb & H).
    apply bind_ok in H. destruct H as (rest & Hrest & H).
    injection H as <-. cbn [fst snd] in *.
    destruct (Hstep i0 d t0 d0 HI Hb) as [HP HI'].
    destruct k as [| k]; cbn in Hk.
    + injection Hk as <-. now rewrite Z.add_0_r.
    + replace (i0 + Z.of_nat (S k)) with (i0 + 1 + Z.of_nat k) by lia.
      exact (IH (i0 + 1) d0 rest HI' Hrest k t Hk).
Qed.

Lemma draw_ticks_ext
    (body body' : Z -> lv_draw_line_dsc_t -> outcome (lv_tick_draw_t * lv_draw_line_dsc_t)) :
  (forall k d, body k d = body' k d) ->
  forall (fuel : nat) (i0 : Z) (d : lv_draw_line_dsc_t),
    draw_ticks body fuel i0 d = draw_ticks body' fuel i0 d.
Proof.
  intros Heq. induction fuel as [| fuel IH]; intros i0 d; cbn [draw_ticks]; [reflexivity|].
  rewrite Heq. destruct (body' i0 d) as [[t0 d0] | f]; cbn; [| reflexivity].
  now rewrite IH.
Qed.

Lemma draw_scale_congr (o o' : lv_obj_t) :
  coords o = coords o' -> style o = style o' -> ext o = ext o' ->
  lv_linearscale_draw_scale o = lv_linearscale_draw_scale o'.
Proof.
  destruct o as [c s e k], o' as [c' s' e' k']. cbn. intros -> -> ->. reflexivity.
Qed.

(** The ticks of a pass that ran to its end, with what each turn computed. *)
Lemma draw_scale_inv (o : lv_obj_t) (ticks : list lv_tick_draw_t) :
  lv_linearscale_draw_scale o = Ok ticks ->
  exists level,
    scale_level (ext o) = Ok level /\
    forall (i : nat) (t : lv_tick_draw_t),
      nth_error ticks i = Some t ->
      exists d d',
        draw_tick (ext o) (style o) (indic_area_of o) (scale_hor o) level
                  (scale_label_counter (ext o)) (Z.of_nat i) d = Ok (t, d').
Proof.
  unfold lv_linearscale_draw_scale. intros H.
  apply bind_ok in H. destruct H as (level & Hl & H).
  exists level. split; [exact Hl|].
  destruct (line_cnt (ext o) >? 1).
  - intros i t Hi.
    apply (draw_ticks_inv _ (fun _ _ => True)
             (fun k t => exists d d',
                draw_tick (ext o) (style o) (indic_area_of o) (scale_hor o) level
                          (scale_label_counter (ext o)) k d = Ok (t, d'))
             ltac:(intros k d t0 d' _ Hb; split; [exists d, d'; exact Hb | exact I])
             _ 0 _ ticks I H i t Hi).
  - injection H as <-. intros [|i] t Hi; discriminate.
Qed.

(** ** Where the ticks lie *)

Lemma tick_position (o : lv_obj_t) (level : Z) (i : nat) (t : lv_tick_draw_t) :
  render_safe o -> 0 <= scale_length o ->
  (i < Z.to_nat (line_cnt (ext o)))%nat ->
  tick_facts o level (Z.of_nat i) t ->
  let a := indic_area_of o in
  let off := (scale_length o * Z.of_nat i) / (line_cnt (ext o) - 1) in
  0 <= off <= scale_length o /\
  if scale_hor o then px (tick_p1 t) = x1 a + off else py (tick_p1 t) = y2 a - off.
Proof.
  intros Hs Hlen0 Hi F a off.
  destruct Hs as (_ & Hn & _).
  pose proof (tf_along _ _ _ _ F) as Ha. cbv zeta in Ha.
  assert (Hq : Z.quot (scale_length o * Z.of_nat i) (line_cnt (ext o) - 1) = off).
  { unfold off. apply Z.quot_div_nonneg; nia. }
  rewrite Hq in Ha.
  assert (Hoff : 0 <= off <= scale_length o).
  { unfold off. split.
    - apply Z.div_pos; nia.
    - apply Z.div_le_upper_bound; nia. }
  split; [exact Hoff|].
  unfold scale_length in Hoff. fold a in Ha, Hoff.
  assert (Hx1 : in_int16 (x1 a)) by apply to_int16_range.
  assert (Hx2 : in_int16 (x2 a)) by apply to_int16_range.
  assert (Hy1 : in_int16 (y1 a)) by apply to_int16_range.
  assert (Hy2 : in_int16 (y2 a)) by apply to_int16_range.
  unfold in_int16 in *.
  destruct (scale_hor o); destruct Ha as [Ha _]; rewrite Ha;
    apply to_int16_small; unfold in_int16; lia.
Qed.

(** X8: in a pass that runs to its end over a length that is not negative,
    every tick lies within the indicator area along the axis, tick 0 on
    the start edge (left, or bottom), the last tick on the opposite edge,
    and the positions never step back as the index grows. *)
Theorem ticks_span_indicator_area (o : lv_obj_t) :
  render_safe o -> 0 <= scale_length o ->
  let a := indic_area_of o in
  exists ticks,
    lv_linearscale_draw_scale o = Ok ticks /\
    (forall (i : nat) (t : lv_tick_draw_t),
       nth_error ticks i = Some t ->
       if scale_hor o then x1 a <= px (tick_p1 t) <= x2 a
       else y1 a <= py (tick_p1 t) <= y2 a) /\
    (forall t : lv_tick_draw_t,
       nth_error ticks 0 = Some t ->
       if scale_hor o then px (tick_p1 t) = x1 a else py (tick_p1 t) = y2 a) /\
    (forall t : lv_tick_draw_t,
       nth_error ticks (Z.to_nat (line_cnt (ext o) - 1)) = Some t ->
       if scale_hor o then px (tick_p1 t) = x2 a else py (tick_p1 t) = y1 a) /\
    (forall (i j : nat) (ti tj : lv_tick_draw_t),
       nth_error ticks i = Some ti -> nth_error ticks j = Some tj -> (i <= j)%nat ->
       if scale_hor o then px (tick_p1 ti) <= px (tick_p1 tj)
       else py (tick_p1 tj) <= py (tick_p1 ti)).
Proof.
  intros Hs Hlen0 a.
  destruct (draw_scale_ok o Hs) as (ticks & Hd & _ & Hlen & Hf).
  pose proof Hs as (_ & Hn & _).
  assert (Hpos : forall (i : nat) (t : lv_tick_draw_t),
             nth_error ticks i = Some t ->
             let off := (scale_length o * Z.of_nat i) / (line_cnt (ext o) - 1) in
             0 <= off <= scale_length o /\
             if scale_hor o then px (tick_p1 t) = x1 a + off else py (tick_p1 t) = y2 a - off).
  { intros i t Hi.
    apply (tick_position o (to_int16 (level_quot (ext o))) i t Hs Hlen0).
    - rewrite <- Hlen. exact (nth_error_index _ _ _ Hi).
    - exact (Hf i t Hi). }
  exists ticks. split; [exact Hd|].
  unfold scale_length in Hpos. fold a in Hpos.
  split; [| split; [| split]].
  - intros i t Hi. specialize (Hpos i t Hi). cbv zeta in Hpos.
    destruct (scale_hor o); destruct Hpos as [Hb Hp]; rewrite Hp; lia.
  - intros t Hi. specialize (Hpos 0%nat t Hi). cbv zeta in Hpos.
    change (Z.of_nat 0) with 0 in Hpos. rewrite Z.mul_0_r, Z.div_0_l in Hpos by lia.
    destruct (scale_hor o); destruct Hpos as [Hb Hp]; rewrite Hp; lia.
  - intros t Hi. specialize (Hpos _ t Hi). cbv zeta in Hpos.
    rewrite Z2Nat.id, Z.div_mul in Hpos by lia.
    destruct (scale_hor o); destruct Hpos as [Hb Hp]; rewrite Hp; lia.
  - intros i j ti tj Hi Hj Hij.
    pose proof (Hpos i ti Hi) as Pi. pose proof (Hpos j tj Hj) as Pj. cbv zeta in Pi, Pj.
    destruct (scale_hor o).
    + assert ((x2 a - x1 a) * Z.of_nat i / (line_cnt (ext o) - 1)
              <= (x2 a - x1 a) * Z.of_nat j / (line_cnt (ext o) - 1))
        by (apply Z.div_le_mono; nia).
      destruct Pi as [_ ->], Pj as [_ ->]. lia.
    + assert ((y2 a - y1 a) * Z.of_nat i / (line_cnt (ext o) - 1)
              <= (y2 a - y1 a) * Z.of_nat j / (line_cnt (ext o) - 1))
        by (apply Z.div_le_mono; nia).
      destruct Pi as [_ ->], Pj as [_ ->]. lia.
Qed.

Lemma ticks_span_indicator_area_witness :
  exists ticks,
    lv_linearscale_draw_scale tall_scale = Ok ticks /\
    (forall (i : nat) (t : lv_tick_draw_t),
       nth_error ticks i = Some t -> 0 <= py (tick_p1 t) <= 149) /\
    (forall t : lv_tick_draw_t, nth_error ticks 0 = Some t -> py (tick_p1 t) = 149) /\
    (forall t : lv_tick_draw_t, nth_error ticks 25 = Some t -> py (tick_p1 t) = 0) /\
    (forall (i j : nat) (ti tj : lv_tick_draw_t),
       nth_error ticks i = Some ti -> nth_error ticks j = Some tj -> (i <= j)%nat ->
       py (tick_p1 tj) <= py (tick_p1 ti)).
Proof.
  assert (Hlen : 0 <= scale_length tall_scale) by discriminate.
  exact (ticks_span_indicator_area tall_scale tall_scale_safe Hlen).
Defined.

(** ** The value at either end of the range *)

(** X9: in a pass that runs to its end, a value at the minimum draws every
    tick with the end colour and the end width, and a value at the maximum
    (with at most 32767 ticks) draws every tick with the gradient blend. *)
Theorem value_at_bounds_colours_all_ticks (o : lv_obj_t) :
  render_safe o ->
  exists ticks,
    lv_linearscale_draw_scale o = Ok ticks /\
    List.length ticks = Z.to_nat (line_cnt (ext o)) /\
    (cur_value (ext o) = min_value (ext o) ->
     forall (i : nat) (t : lv_tick_draw_t),
       nth_error ticks i = Some t ->
       dsc_color (tick_line_dsc t) = scale_end_color (style o) /\
       dsc_width (tick_line_dsc t) = scale_end_line_width (style o)) /\
    (cur_value (ext o) = max_value (ext o) -> line_cnt (ext o) <= 32767 ->
     forall (i : nat) (t : lv_tick_draw_t),
       nth_error ticks i = Some t ->
       dsc_color (tick_line_dsc t) =
         lv_color_mix (scale_grad_color (style o)) (line_color (style o))
                      (255 * Z.of_nat i / line_cnt (ext o))).
Proof.
  intros Hs.
  destruct (draw_scale_ok o Hs) as (ticks & Hd & _ & Hlen & Hf).
  pose proof Hs as ((Hne & _) & Hn & _).
  exists ticks. split; [exact Hd|]. split; [exact Hlen|]. split.
  - intros Hmin i t Hi.
    assert (Hl : to_int16 (level_quot (ext o)) = 0).
    { unfold level_quot. rewrite Hmin, Z.sub_diag, Z.mul_0_l.
      rewrite Z.quot_0_l by lia. reflexivity. }
    pose proof (Hf i t Hi) as F. rewrite Hl in F.
    apply (tf_beyond _ _ _ _ F). lia.
  - intros Hmax H16 i t Hi.
    assert (Hl : to_int16 (level_quot (ext o)) = line_cnt (ext o)).
    { unfold level_quot. rewrite Hmax.
      rewrite (Z.mul_comm (max_value (ext o) - min_value (ext o))).
      rewrite Z.quot_mul by lia.
      apply to_int16_small. unfold in_int16. lia. }
    pose proof (Hf i t Hi) as F. rewrite Hl in F.
    pose proof (nth_error_index _ _ _ Hi) as Hi'. rewrite Hlen in Hi'.
    rewrite (tf_below _ _ _ _ F) by lia.
    f_equal. apply Z.quot_div_nonneg; lia.
Qed.

Lemma value_at_bounds_colours_all_ticks_witness :
  (exists ticks,
     lv_linearscale_draw_scale sample_scale = Ok ticks /\
     forall (i : nat) (t : lv_tick_draw_t),
       nth_error ticks i = Some t ->
       dsc_color (tick_line_dsc t) = mk_color 128 128 128 /\
       dsc_width (tick_line_dsc t) = 1) /\
  (exists ticks,
     lv_linearscale_draw_scale (lv_linearscale_set_value sample_scale 100) = Ok ticks /\
     forall (i : nat) (t : lv_tick_draw_t),
       nth_error ticks i = Some t ->
       dsc_color (tick_line_dsc t) =
         lv_color_mix (mk_color 0 0 255) (mk_color 255 0 0) (255 * Z.of_nat i / 26)).
Proof.
  split.
  - destruct (value_at_bounds_colours_all_ticks sample_scale sample_scale_safe)
      as (ticks & Hd & _ & Hmin & _).
    exists ticks. split; [exact Hd|]. exact (Hmin eq_refl).
  - assert (Hs : render_safe (lv_linearscale_set_value sample_scale 100)) by prove_safe.
    destruct (value_at_bounds_colours_all_ticks (lv_linearscale_set_value sample_scale 100) Hs)
      as (ticks & Hd & _ & _ & Hmax).
    exists ticks. split; [exact Hd|].
    assert (H16 : line_cnt (ext (lv_linearscale_set_value sample_scale 100)) <= 32767)
      by discriminate.
    exact (Hmax eq_refl H16).
Defined.

(** ** The labels *)

(** X10: in a pass that runs to its end, tick 0 is always major, of full
    thickness and labelled with the minimum; every label value lies
    between the two bounds and its text is the formatter's, or the default
    conversion's without one; the last tick, when it is labelled, reads
    the maximum. *)
Theorem labels_run_from_minimum_within_bounds (o : lv_obj_t) :
  render_safe o ->
  exists ticks,
    lv_linearscale_draw_scale o = Ok ticks /\
    (forall t : lv_tick_draw_t,
       nth_error ticks 0 = Some t ->
       tick_minor t = false /\
       tick_width t = scale_width (style o) /\
       exists l, tick_label t = Some l /\ scale_act l = min_value (ext o)) /\
    (forall (i : nat) (t : lv_tick_draw_t) (l : lv_label_draw_t),
       nth_error ticks i = Some t -> tick_label t = Some l ->
       Z.min (min_value (ext o)) (max_value (ext o)) <= scale_act l
         <= Z.max (min_value (ext o)) (max_value (ext o)) /\
       scale_txt l = match format_cb (ext o) with
                     | None => num_to_str (style o) (scale_act l)
                     | Some cb => cb (scale_act l)
                     end) /\
    (forall (t : lv_tick_draw_t) (l : lv_label_draw_t),
       nth_error ticks (Z.to_nat (line_cnt (ext o) - 1)) = Some t ->
       tick_label t = Some l ->
       scale_act l = max_value (ext o)).
Proof.
  intros Hs.
  destruct (draw_scale_ok o Hs) as (ticks & Hd & _ & Hlen & Hf).
  pose proof Hs as (_ & Hn & _).
  assert (Hlab : forall (i : nat) (t : lv_tick_draw_t) (l : lv_label_draw_t),
             nth_error ticks i = Some t -> tick_label t = Some l ->
             scale_act l =
               Z.quot ((max_value (ext o) - min_value (ext o)) * Z.of_nat i)
                      (line_cnt (ext o) - 1) + min_value (ext o) /\
             scale_txt l = match format_cb (ext o) with
                           | None => num_to_str (style o) (scale_act l)
                           | Some cb => cb (scale_act l)
                           end).
  { intros i t l Hi Hl. pose proof (Hf i t Hi) as F.
    assert (Hm : tick_minor t = false).
    { destruct (tick_minor t) eqn:E; [| reflexivity].
      rewrite (tf_no_label _ _ _ _ F E) in Hl. discriminate. }
    destruct (tf_label _ _ _ _ F Hm) as (l' & Hl' & Hact & Htxt).
    assert (l' = l) by congruence. subst l'. split; assumption. }
  exists ticks. split; [exact Hd|]. split; [| split].
  - intros t Hi. pose proof (Hf 0%nat t Hi) as F.
    assert (Hm : tick_minor t = false).
    { rewrite (tf_minor _ _ _ _ F). change (Z.of_nat 0) with 0.
      rewrite Z.rem_0_l; [reflexivity|].
      destruct Hs as (_ & Hn' & Hl & Hle & _).
      exact (label_counter_nonzero _ Hn' Hl Hle). }
    split; [exact Hm|]. split.
    + rewrite (tf_width _ _ _ _ F), Hm. reflexivity.
    + destruct (tf_label _ _ _ _ F Hm) as (l & Hl & Hact & _).
      exists l. split; [exact Hl|]. rewrite Hact.
      change (Z.of_nat 0) with 0. rewrite Z.mul_0_r, Z.quot_0_l by lia. lia.
  - intros i t l Hi Hl. destruct (Hlab i t l Hi Hl) as [Hact Htxt].
    split; [| exact Htxt].
    pose proof (nth_error_index _ _ _ Hi) as Hi'. rewrite Hlen in Hi'.
    destruct (quot_share (max_value (ext o) - min_value (ext o)) (Z.of_nat i)
                         (line_cnt (ext o) - 1)) as [Hp Hm]; [lia | lia |].
    rewrite Hact.
    destruct (Z.le_gt_cases 0 (max_value (ext o) - min_value (ext o)));
      [specialize (Hp ltac:(lia)) | specialize (Hm ltac:(lia))]; lia.
  - intros t l Hi Hl. destruct (Hlab _ t l Hi Hl) as [Hact _].
    rewrite Hact, Z2Nat.id, Z.quot_mul by lia. lia.
Qed.

Lemma labels_run_from_minimum_within_bounds_witness :
  exists ticks,
    lv_linearscale_draw_scale sample_scale = Ok ticks /\
    (forall t : lv_tick_draw_t,
       nth_error ticks 0 = Some t ->
       tick_minor t = false /\ tick_width t = 10 /\
       exists l, tick_label t = Some l /\ scale_act l = 0) /\
    (forall (i : nat) (t : lv_tick_draw_t) (l : lv_label_draw_t),
       nth_error ticks i = Some t -> tick_label t = Some l ->
       0 <= scale_act l <= 100 /\ scale_txt l = String.EmptyString) /\
    (forall (t : lv_tick_draw_t) (l : lv_label_draw_t),
       nth_error ticks 25 = Some t -> tick_label t = Some l -> scale_act l = 100).
Proof.
  exact (labels_run_from_minimum_within_bounds sample_scale sample_scale_safe).
Defined.

(** ** The line descriptor from turn to turn *)

Lemma draw_scale_line_dsc (o : lv_obj_t) (ticks : list lv_tick_draw_t) (level : Z) :
  lv_linearscale_draw_scale o = Ok ticks ->
  scale_level (ext o) = Ok level ->
  forall (i : nat) (t : lv_tick_draw_t),
    nth_error ticks i = Some t ->
    dsc_raw_end (tick_line_dsc t) = 1 /\
    (Z.of_nat i < level ->
     dsc_width (tick_line_dsc t) = dsc_width (init_line_dsc (style o))).
Proof.
  unfold lv_linearscale_draw_scale. intros H Hl. rewrite Hl in H.
  cbv beta iota delta [bind] in H.
  set (w0 := dsc_width (init_line_dsc (style o))) in *.
  assert (Hstep : forall k d t d',
             dsc_raw_end d = 1 /\ (k <= level -> dsc_width d = w0) ->
             draw_tick (ext o) (style o) (indic_area_of o) (scale_hor o) level
                       (scale_label_counter (ext o)) k d = Ok (t, d') ->
             (dsc_raw_end (tick_line_dsc t) = 1 /\
              (k < level -> dsc_width (tick_line_dsc t) = w0)) /\
             (dsc_raw_end d' = 1 /\ (k + 1 <= level -> dsc_width d' = w0))).
  { intros k d t d' [Hr Hw] Hb.
    apply draw_tick_inv in Hb. destruct Hb as (_ & _ & _ & _ & Ht & Hd' & _).
    rewrite Ht, Hd'. unfold tick_line. rewrite Z.geb_leb.
    destruct (Z.leb_spec level k); cbn [dsc_raw_end dsc_width].
    - repeat split; auto; intros; lia.
    - repeat split; auto; intros; apply Hw; lia. }
  destruct (line_cnt (ext o) >? 1).
  - intros i t Hi.
    refine (draw_ticks_inv _ _
              (fun k t => dsc_raw_end (tick_line_dsc t) = 1 /\
                          (k < level -> dsc_width (tick_line_dsc t) = w0))
              Hstep _ 0 _ ticks _ H i t Hi).
    split; [reflexivity | intros _; reflexivity].
  - injection H as <-. intros [|i] t Hi; discriminate.
Qed.

(** X11: in a pass that runs to its end every line is drawn with [raw_end
    = 1]; the ticks below the level keep the line width the style gave,
    the end width reaches only the ticks at or beyond the level. *)
Theorem gradient_ticks_keep_line_width (o : lv_obj_t) :
  render_safe o ->
  exists ticks level,
    lv_linearscale_draw_scale o = Ok ticks /\
    scale_level (ext o) = Ok level /\
    forall (i : nat) (t : lv_tick_draw_t),
      nth_error ticks i = Some t ->
      dsc_raw_end (tick_line_dsc t) = 1 /\
      (Z.of_nat i < level ->
       dsc_width (tick_line_dsc t) = dsc_width (init_line_dsc (style o))) /\
      (level <= Z.of_nat i ->
       dsc_width (tick_line_dsc t) = scale_end_line_width (style o)).
Proof.
  intros Hs.
  destruct (draw_scale_ok o Hs) as (ticks & Hd & Hl & _ & Hf).
  exists ticks, (to_int16 (level_quot (ext o))).
  split; [exact Hd|]. split; [exact Hl|].
  intros i t Hi.
  destruct (draw_scale_line_dsc o ticks _ Hd Hl i t Hi) as [Hr Hw].
  split; [exact Hr|]. split; [exact Hw|].
  intros Hb. exact (proj2 (tf_beyond _ _ _ _ (Hf i t Hi) Hb)).
Qed.

Lemma gradient_ticks_keep_line_width_witness :
  let o := lv_linearscale_set_value sample_scale 50 in
  exists ticks level,
    lv_linearscale_draw_scale o = Ok ticks /\
    scale_level (ext o) = Ok level /\
    forall (i : nat) (t : lv_tick_draw_t),
      nth_error ticks i = Some t ->
      dsc_raw_end (tick_line_dsc t) = 1 /\
      (Z.of_nat i < level -> dsc_width (tick_line_dsc t) = 2) /\
      (level <= Z.of_nat i -> dsc_width (tick_line_dsc t) = 1).
Proof.
  assert (Hs : render_safe (lv_linearscale_set_value sample_scale 50)) by prove_safe.
  exact (gradient_ticks_keep_line_width (lv_linearscale_set_value sample_scale 50) Hs).
Defined.

(** ** Across the axis *)

(** X12: in a pass that runs to its end every tick is a segment across the
    axis, running [tick_width] inward from the aligned edge of the
    indicator area: from the top edge for TOP and from the bottom edge
    otherwise when horizontal, from the left edge for LEFT and from the
    right edge otherwise when vertical. *)
Theorem ticks_project_from_aligned_edge (o : lv_obj_t) :
  render_safe o ->
  let a := indic_area_of o in
  exists ticks,
    lv_linearscale_draw_scale o = Ok ticks /\
    forall (i : nat) (t : lv_tick_draw_t),
      nth_error ticks i = Some t ->
      if scale_hor o then
        px (tick_p2 t) = px (tick_p1 t) /\
        if align (ext o) =? LV_LINEARSCALE_ALIGN_TOP
        then py (tick_p1 t) = y1 a /\ py (tick_p2 t) = to_int16 (y1 a + tick_width t)
        else py (tick_p1 t) = to_int16 (y2 a - tick_width t) /\ py (tick_p2 t) = y2 a
      else
        py (tick_p2 t) = py (tick_p1 t) /\
        if align (ext o) =? LV_LINEARSCALE_ALIGN_LEFT
        then px (tick_p1 t) = x1 a /\ px (tick_p2 t) = to_int16 (x1 a + tick_width t)
        else px (tick_p1 t) = to_int16 (x2 a - tick_width t) /\ px (tick_p2 t) = x2 a.
Proof.
  intros Hs a.
  destruct (draw_scale_ok o Hs) as (ticks & Hd & _ & _ & _).
  exists ticks. split; [exact Hd|].
  destruct (draw_scale_inv o ticks Hd) as (level & _ & Hinv).
  intros i t Hi. destruct (Hinv i t Hi) as (d & d' & Hb).
  apply draw_tick_inv in Hb. destruct Hb as (_ & _ & _ & Hp & _).
  unfold tick_points in Hp. fold a in Hp.
  destruct (scale_hor o).
  - apply bind_ok in Hp. destruct Hp as (x & _ & Hp).
    destruct (align (ext o) =? LV_LINEARSCALE_ALIGN_TOP);
      injection Hp as H1 H2; rewrite <- H1, <- H2; cbn [px py]; auto.
  - apply bind_ok in Hp. destruct Hp as (y & _ & Hp).
    destruct (align (ext o) =? LV_LINEARSCALE_ALIGN_LEFT);
      injection Hp as H1 H2; rewrite <- H1, <- H2; cbn [px py]; auto.
Qed.

Lemma ticks_project_from_aligned_edge_witness :
  exists ticks,
    lv_linearscale_draw_scale sample_scale = Ok ticks /\
    forall (i : nat) (t : lv_tick_draw_t),
      nth_error ticks i = Some t ->
      px (tick_p2 t) = px (tick_p1 t) /\
      py (tick_p1 t) = to_int16 (99 - tick_width t) /\ py (tick_p2 t) = 99.
Proof.
  exact (ticks_project_from_aligned_edge sample_scale sample_scale_safe).
Defined.

(** ** Alignments the orientation does not know *)

Lemma set_alignment_shape (o : lv_obj_t) (d : lv_linearscale_align_t) :
  coords (lv_linearscale_set_alignment o d) = coords o /\
  style (lv_linearscale_set_alignment o d) = style o /\
  ext (lv_linearscale_set_alignment o d)
  = mk_ext (line_cnt (ext o)) (label_cnt (ext o)) (cur_value (ext o))
           (min_value (ext o)) (max_value (ext o)) d (format_cb (ext o)).
Proof.
  destruct o as [cs s [l n cur lo hi a f] k].
  setter_cases; repeat split; congruence.
Qed.

Lemma draw_scale_align_irrelevant (cs : lv_area_t) (s : lv_style_t)
    (l n cur lo hi : Z) (f : option lv_linearscale_format_cb_t)
    (a b : lv_linearscale_align_t) (k k' : nat) :
  (if scale_hor (mk_obj cs s default_ext 0)
   then a <> LV_LINEARSCALE_ALIGN_TOP /\ b <> LV_LINEARSCALE_ALIGN_TOP
   else a <> LV_LINEARSCALE_ALIGN_LEFT /\ b <> LV_LINEARSCALE_ALIGN_LEFT) ->
  lv_linearscale_draw_scale (mk_obj cs s (mk_ext l n cur lo hi a f) k)
  = lv_linearscale_draw_scale (mk_obj cs s (mk_ext l n cur lo hi b f) k').
Proof.
  intros Hab.
  unfold lv_linearscale_draw_scale.
  change (scale_hor (mk_obj cs s (mk_ext l n cur lo hi a f) k))
    with (scale_hor (mk_obj cs s default_ext 0)).
  change (scale_hor (mk_obj cs s (mk_ext l n cur lo hi b f) k'))
    with (scale_hor (mk_obj cs s default_ext 0)).
  change (indic_area_of (mk_obj cs s (mk_ext l n cur lo hi a f) k))
    with (indic_area_of (mk_obj cs s default_ext 0)).
  change (indic_area_of (mk_obj cs s (mk_ext l n cur lo hi b f) k'))
    with (indic_area_of (mk_obj cs s default_ext 0)).
  cbn [ext style].
  change (scale_level (mk_ext l n cur lo hi b f)) with (scale_level (mk_ext l n cur lo hi a f)).
  destruct (scale_level (mk_ext l n cur lo hi a f)) as [level | flt]; [| reflexivity].
  step_bind. cbn [line_cnt].
  destruct (l >? 1); [| reflexivity].
  apply draw_ticks_ext. intros i d.
  unfold draw_tick.
  change (scale_label_counter (mk_ext l n cur lo hi b f))
    with (scale_label_counter (mk_ext l n cur lo hi a f)).
  destruct (int_rem i (scale_label_counter (mk_ext l n cur lo hi a f))) as [r | flt];
    [| reflexivity].
  step_bind.
  unfold tick_points, tick_label_of, label_area, tick_line, label_value, tick_offset.
  cbn [align line_cnt max_value min_value format_cb].
  destruct (scale_hor (mk_obj cs s default_ext 0)); destruct Hab as [Ha Hb].
  - destruct (Z.eqb_spec a LV_LINEARSCALE_ALIGN_TOP); [contradiction|].
    destruct (Z.eqb_spec b LV_LINEARSCALE_ALIGN_TOP); [contradiction|].
    reflexivity.
  - destruct (Z.eqb_spec a LV_LINEARSCALE_ALIGN_LEFT); [contradiction|].
    destruct (Z.eqb_spec b LV_LINEARSCALE_ALIGN_LEFT); [contradiction|].
    reflexivity.
Qed.

(** X13: the pass tests the alignment against TOP only when horizontal and
    against LEFT only when vertical: on a horizontal widget any two
    alignments other than TOP give the same pass, on a vertical widget any
    two other than LEFT. *)
Theorem alignment_off_axis_falls_through (o : lv_obj_t) (d d' : lv_linearscale_align_t) :
  (scale_hor o = true ->
   d <> LV_LINEARSCALE_ALIGN_TOP -> d' <> LV_LINEARSCALE_ALIGN_TOP ->
   lv_linearscale_draw_scale (lv_linearscale_set_alignment o d)
   = lv_linearscale_draw_scale (lv_linearscale_set_alignment o d')) /\
  (scale_hor o = false ->
   d <> LV_LINEARSCALE_ALIGN_LEFT -> d' <> LV_LINEARSCALE_ALIGN_LEFT ->
   lv_linearscale_draw_scale (lv_linearscale_set_alignment o d)
   = lv_linearscale_draw_scale (lv_linearscale_set_alignment o d')).
Proof.
  destruct (set_alignment_shape o d) as (Hc & Hs & He).
  destruct (set_alignment_shape o d') as (Hc' & Hs' & He').
  assert (Hshape : forall (x : lv_obj_t) (al : lv_linearscale_align_t),
             coords x = coords o -> style x = style o ->
             ext x = mk_ext (line_cnt (ext o)) (label_cnt (ext o)) (cur_value (ext o))
                            (min_value (ext o)) (max_value (ext o)) al (format_cb (ext o)) ->
             lv_linearscale_draw_scale x
             = lv_linearscale_draw_scale
                 (mk_obj (coords o) (style o)
                    (mk_ext (line_cnt (ext o)) (label_cnt (ext o)) (cur_value (ext o))
                            (min_value (ext o)) (max_value (ext o)) al (format_cb (ext o))) 0)).
  { intros x al H1 H2 H3. apply draw_scale_congr; cbn; assumption. }
  rewrite (Hshape _ d Hc Hs He), (Hshape _ d' Hc' Hs' He').
  assert (Hh : scale_hor (mk_obj (coords o) (style o) default_ext 0) = scale_hor o)
    by (destruct o; reflexivity).
  split; intros Hor Hd Hd';
    apply draw_scale_align_irrelevant; rewrite Hh, Hor; split; assumption.
Qed.

Lemma alignment_off_axis_falls_through_witness :
  lv_linearscale_draw_scale (lv_linearscale_set_alignment sample_scale LV_LINEARSCALE_ALIGN_LEFT)
  = lv_linearscale_draw_scale (lv_linearscale_set_alignment sample_scale LV_LINEARSCALE_ALIGN_BOT)
  /\
  lv_linearscale_draw_scale (lv_linearscale_set_alignment tall_scale LV_LINEARSCALE_ALIGN_TOP)
  = lv_linearscale_draw_scale (lv_linearscale_set_alignment tall_scale LV_LINEARSCALE_ALIGN_RIGHT).
Proof.
  split.
  - apply (proj1 (alignment_off_axis_falls_through sample_scale
                    LV_LINEARSCALE_ALIGN_LEFT LV_LINEARSCALE_ALIGN_BOT));
      [reflexivity | discriminate | discriminate].
  - apply (proj2 (alignment_off_axis_falls_through tall_scale
                    LV_LINEARSCALE_ALIGN_TOP LV_LINEARSCALE_ALIGN_RIGHT));
      [reflexivity | discriminate | discriminate].
Defined.

(** ** Equal bounds, a single tick *)



(** X15: with a tick count of at most one the loop is not entered: once
    the level is computed the pass draws no tick, whatever the label
    count, and the design callback draws the background alone. *)
Theorem single_tick_draws_nothing (o : lv_obj_t) :
  level_safe (ext o) ->
  line_cnt (ext o) <= 1 ->
  lv_linearscale_draw_scale o = Ok [] /\
  lv_linearscale_design o LV_DESIGN_DRAW_MAIN
  = Ok ([DrawRect (coords o)], LV_DESIGN_RES_OK).
Proof.
  intros Hlev Hn.
  assert (Hd : lv_linearscale_draw_scale o = Ok []).
  { unfold lv_linearscale_draw_scale. rewrite (scale_level_ok _ Hlev). step_bind.
    rewrite Z.gtb_ltb. destruct (Z.ltb_spec 1 (line_cnt (ext o))); [lia | reflexivity]. }
  split; [exact Hd|].
  unfold lv_linearscale_design. rewrite Hd. reflexivity.
Qed.

Lemma single_tick_draws_nothing_witness :
  let o := lv_linearscale_set_scale sample_scale 1 0 in
  lv_linearscale_draw_scale o = Ok [] /\
  lv_linearscale_design o LV_DESIGN_DRAW_MAIN
  = Ok ([DrawRect (mk_area 0 0 149 99)], LV_DESIGN_RES_OK).
Proof.
  cbv zeta.
  assert (Hlev : level_safe (ext (lv_linearscale_set_scale sample_scale 1 0)))
    by (unfold level_safe, in_int; vm_compute; repeat split; discriminate).
  assert (Hn : line_cnt (ext (lv_linearscale_set_scale sample_scale 1 0)) <= 1)
    by discriminate.
  exact (single_tick_draws_nothing _ Hlev Hn).
Defined.

(** ** How many labels are drawn *)

Lemma div_succ (n step : Z) :
  0 <= n -> 1 <= step ->
  (n + 1) / step = n / step + (if (n + 1) mod step =? 0 then 1 else 0).
Proof.
  intros Hn Hs.
  pose proof (Z.div_mod n step ltac:(lia)) as Hdm.
  pose proof (Z.mod_pos_bound n step ltac:(lia)) as Hb.
  destruct (Z.eq_dec (n mod step + 1) step) as [E | E].
  - assert (Hm : (n + 1) mod step = 0).
    { symmetry. apply (Z.mod_unique _ _ (n / step + 1)); lia. }
    rewrite Hm. cbn. symmetry. apply (Z.div_unique _ _ _ 0); lia.
  - assert (Hm : (n + 1) mod step = n mod step + 1).
    { symmetry. apply (Z.mod_unique _ _ (n / step)); lia. }
    rewrite Hm. destruct (Z.eqb_spec (n mod step + 1) 0); [lia|].
    rewrite Z.add_0_r. symmetry. apply (Z.div_unique _ _ _ (n mod step + 1)); lia.
Qed.

Lemma count_multiples_closed (step : Z) (n : nat) :
  1 <= step ->
  Z.of_nat (count_multiples step (S n)) = Z.of_nat n / step + 1.
Proof.
  intros Hs. induction n as [| n IH].
  - cbn [count_multiples]. change (Z.of_nat 0) with 0.
    rewrite Z.mod_0_l, Z.div_0_l by lia. reflexivity.
  - change (count_multiples step (S (S n)))
      with (count_multiples step (S n)
            + (if (Z.of_nat (S n) mod step =? 0)%Z then 1 else 0))%nat.
    rewrite Nat2Z.inj_add, IH.
    replace (Z.of_nat (S n)) with (Z.of_nat n + 1) by lia.
    rewrite (div_succ (Z.of_nat n) step) by lia.
    destruct ((Z.of_nat n + 1) mod step =? 0); cbn; lia.
Qed.

Lemma count_labelled_multiples (step : Z) (ticks : list lv_tick_draw_t) :
  (forall (k : nat) (t : lv_tick_draw_t),
     nth_error ticks k = Some t -> has_label t = (Z.of_nat k mod step =? 0)) ->
  count_labelled ticks = count_multiples step (List.length ticks).
Proof.
  unfold count_labelled.
  induction ticks as [| t ticks IH] using rev_ind; intros H; [reflexivity|].
  rewrite filter_app, !length_app, IH.
  - cbn [List.length filter]. rewrite Nat.add_1_r. cbn [count_multiples].
    f_equal. rewrite <- (H (List.length ticks) t).
    + destruct (has_label t); reflexivity.
    + rewrite nth_error_app2 by lia. rewrite Nat.sub_diag. reflexivity.
  - intros k t' Hk. apply H. rewrite nth_error_app1; [exact Hk|].
    exact (nth_error_index _ _ _ Hk).
Qed.

(** X16: in a pass that runs to its end with a step [line_cnt / (label_cnt
    - 1)] of at most 32767, the number of labels drawn is [(line_cnt - 1)
    / step + 1], which need not be [label_cnt]. *)
Theorem labels_drawn_count (o : lv_obj_t) :
  render_safe o ->
  line_cnt (ext o) / (label_cnt (ext o) - 1) <= 32767 ->
  let step := line_cnt (ext o) / (label_cnt (ext o) - 1) in
  exists ticks,
    lv_linearscale_draw_scale o = Ok ticks /\
    List.length ticks = Z.to_nat (line_cnt (ext o)) /\
    Z.of_nat (count_labelled ticks) = (line_cnt (ext o) - 1) / step + 1.
Proof.
  intros Hs H16 step.
  destruct (draw_scale_ok o Hs) as (ticks & Hd & _ & Hlen & Hf).
  pose proof Hs as (_ & Hn & Hl & Hle & _).
  assert (Hstep : 1 <= step) by (apply Z.div_le_lower_bound; lia).
  assert (Hlc : scale_label_counter (ext o) = step).
  { unfold scale_label_counter. rewrite Z.gtb_ltb.
    destruct (Z.ltb_spec 1 (label_cnt (ext o))); [| lia].
    rewrite Z.quot_div_nonneg by lia. apply to_int16_small. unfold in_int16.
    fold step. lia. }
  exists ticks. split; [exact Hd|]. split; [exact Hlen|].
  rewrite (count_labelled_multiples step).
  - rewrite Hlen.
    replace (Z.to_nat (line_cnt (ext o))) with (S (Z.to_nat (line_cnt (ext o) - 1))) by lia.
    rewrite count_multiples_closed by lia. rewrite Z2Nat.id by lia. reflexivity.
  - intros k t Hk. pose proof (Hf k t Hk) as F.
    pose proof (tf_minor _ _ _ _ F) as Hm. rewrite Hlc in Hm.
    rewrite Z.rem_mod_nonneg in Hm by lia.
    unfold has_label.
    destruct (Z.of_nat k mod step =? 0); cbn in Hm.
    + destruct (tf_label _ _ _ _ F Hm) as (l & -> & _). reflexivity.
    + rewrite (tf_no_label _ _ _ _ F Hm). reflexivity.
Qed.

Lemma labels_drawn_count_witness :
  (exists ticks,
     lv_linearscale_draw_scale sample_scale = Ok ticks /\
     List.length ticks = 26%nat /\
     Z.of_nat (count_labelled ticks) = 6) /\
  (exists ticks,
     lv_linearscale_draw_scale (lv_linearscale_set_scale sample_scale 30 6) = Ok ticks /\
     List.length ticks = 30%nat /\
     Z.of_nat (count_labelled ticks) = 5).
Proof.
  split.
  - assert (H16 : line_cnt (ext sample_scale) / (label_cnt (ext sample_scale) - 1) <= 32767)
      by discriminate.
    exact (labels_drawn_count sample_scale sample_scale_safe H16).
  - assert (Hs : render_safe (lv_linearscale_set_scale sample_scale 30 6)) by prove_safe.
    assert (H16 : line_cnt (ext (lv_linearscale_set_scale sample_scale 30 6))
                  / (label_cnt (ext (lv_linearscale_set_scale sample_scale 30 6)) - 1) <= 32767)
      by discriminate.
    exact (labels_drawn_count (lv_linearscale_set_scale sample_scale 30 6) Hs H16).
Defined.

(** ** The design callback *)

Lemma tick_cmds_counts (ticks : list lv_tick_draw_t) :
  List.length (filter is_line_cmd (flat_map tick_cmds ticks)) = List.length ticks /\
  List.length (filter is_label_cmd (flat_map tick_cmds ticks)) = count_labelled ticks.
Proof.
  unfold count_labelled.
  induction ticks as [| t ticks [IH1 IH2]]; [split; reflexivity|].
  cbn [flat_map]. rewrite !filter_app, !length_app, IH1, IH2.
  unfold tick_cmds, has_label. cbn [filter].
  destruct (tick_label t); cbn; split; reflexivity.
Qed.

(** X17: the design callback draws nothing and cannot fail in the cover
    check and the post draw, answering NOT_COVER and OK; in the main draw
    of a safe widget it draws the background rectangle first, then for
    each tick in turn its line directly followed by its label if it has
    one, a label exactly for the ticks that are not minor. *)
Theorem design_draws_background_then_ticks (o : lv_obj_t) :
  lv_linearscale_design o LV_DESIGN_COVER_CHK = Ok ([], LV_DESIGN_RES_NOT_COVER) /\
  lv_linearscale_design o LV_DESIGN_DRAW_POST = Ok ([], LV_DESIGN_RES_OK) /\
  (render_safe o ->
   exists ticks,
     lv_linearscale_draw_scale o = Ok ticks /\
     lv_linearscale_design o LV_DESIGN_DRAW_MAIN
     = Ok (DrawRect (coords o) :: flat_map tick_cmds ticks, LV_DESIGN_RES_OK) /\
     List.length (filter is_line_cmd (flat_map tick_cmds ticks))
     = Z.to_nat (line_cnt (ext o)) /\
     List.length (filter is_label_cmd (flat_map tick_cmds ticks)) = count_labelled ticks /\
     forall (i : nat) (t : lv_tick_draw_t),
       nth_error ticks i = Some t ->
       tick_cmds t =
         DrawLine (tick_p1 t) (tick_p2 t) (tick_line_dsc t)
         :: match tick_label t with
            | Some l => [DrawLabel (label_cord l) (scale_txt l)]
            | None => []
            end /\
       (tick_label t = None <-> tick_minor t = true)).
Proof.
  split; [reflexivity|]. split; [reflexivity|].
  intros Hs.
  destruct (draw_scale_ok o Hs) as (ticks & Hd & _ & Hlen & Hf).
  exists ticks. split; [exact Hd|].
  split; [unfold lv_linearscale_design; rewrite Hd; reflexivity|].
  destruct (tick_cmds_counts ticks) as [H1 H2].
  split; [now rewrite H1|]. split; [exact H2|].
  intros i t Hi. split; [reflexivity|].
  pose proof (Hf i t Hi) as F.
  split.
  - intros Hnone. destruct (tick_minor t) eqn:E; [reflexivity|].
    destruct (tf_label _ _ _ _ F E) as (l & Hl & _). congruence.
  - exact (tf_no_label _ _ _ _ F).
Qed.

Lemma design_draws_background_then_ticks_witness :
  exists ticks,
    lv_linearscale_draw_scale sample_scale = Ok ticks /\
    lv_linearscale_design sample_scale LV_DESIGN_DRAW_MAIN
    = Ok (DrawRect (mk_area 0 0 149 99) :: flat_map tick_cmds ticks, LV_DESIGN_RES_OK) /\
    List.length (filter is_line_cmd (flat_map tick_cmds ticks)) = 26%nat.
Proof.
  destruct (proj2 (proj2 (design_draws_background_then_ticks sample_scale)) sample_scale_safe)
    as (ticks & Hd & Hm & Hl & _).
  exists ticks. split; [exact Hd|]. split; [exact Hm | exact Hl].
Defined.

(** ** The formatter *)

(** X18: [lv_linearscale_set_formatter_cb] issues no redraw request, and
    in the next pass every label text is what the formatter just set gives
    for the label value (the default conversion after setting none), the
    label being measured and placed from that text. *)
Theorem formatter_writes_every_label (o : lv_obj_t) (cb : option lv_linearscale_format_cb_t) :
  render_safe o ->
  let o' := lv_linearscale_set_formatter_cb o cb in
  invalidations o' = invalidations o /\
  exists ticks,
    lv_linearscale_draw_scale o' = Ok ticks /\
    List.length ticks = Z.to_nat (line_cnt (ext o)) /\
    forall (i : nat) (t : lv_tick_draw_t) (l : lv_label_draw_t),
      nth_error ticks i = Some t -> tick_label t = Some l ->
      scale_txt l = match cb with
                    | Some f => f (scale_act l)
                    | None => num_to_str (style o) (scale_act l)
                    end /\
      label_cord l =
        label_area (ext o) (style o) (scale_hor o) (tick_width t) (tick_p1 t) (tick_p2 t)
                   (txt_get_size (style o) (scale_txt l)).
Proof.
  intros Hs o'. split; [reflexivity|].
  assert (Hs' : render_safe o') by exact Hs.
  destruct (draw_scale_ok o' Hs') as (ticks & Hd & _ & Hlen & _).
  exists ticks. split; [exact Hd|]. split; [exact Hlen|].
  destruct (draw_scale_inv o' ticks Hd) as (level & _ & Hinv).
  intros i t l Hi Hl. destruct (Hinv i t Hi) as (d & d' & Hb).
  apply draw_tick_inv in Hb. destruct Hb as (_ & _ & _ & _ & _ & _ & Hlab).
  unfold tick_label_of in Hlab. rewrite Hl in Hlab.
  destruct (tick_minor t); [discriminate|].
  apply bind_ok in Hlab. destruct Hlab as (v & _ & Hlab).
  injection Hlab as <-. cbn [scale_txt scale_act label_cord].
  change (format_cb (ext o')) with cb. change (style o') with (style o).
  split; [destruct cb; reflexivity|].
  destruct cb; reflexivity.
Qed.

Lemma formatter_writes_every_label_witness :
  let cb := fun v : Z =>
              String.String (Ascii.ascii_of_nat (if v <? 50 then 108 else 104))
                            String.EmptyString in
  exists ticks,
    lv_linearscale_draw_scale (lv_linearscale_set_formatter_cb sample_scale (Some cb)) = Ok ticks /\
    forall (i : nat) (t : lv_tick_draw_t) (l : lv_label_draw_t),
      nth_error ticks i = Some t -> tick_label t = Some l ->
      scale_txt l = cb (scale_act l).
Proof.
  intros cb.
  destruct (formatter_writes_every_label sample_scale (Some cb) sample_scale_safe)
    as (_ & ticks & Hd & _ & H).
  exists ticks. split; [exact Hd|].
  intros i t l Hi Hl. exact (proj1 (H i t l Hi Hl)).
Defined.

(** ** Where the labels go *)

(** X19: in a pass that runs to its end a label rectangle has the measured
    size of its text; when horizontal it is centred on the tick along the
    axis and put below the tick end plus the bottom padding for TOP, above
    the tick otherwise; when vertical it is centred on the tick and starts
    at the tick end for LEFT, ends at the tick start otherwise. *)
Theorem labels_sit_beside_ticks (o : lv_obj_t) :
  render_safe o ->
  exists ticks,
    lv_linearscale_draw_scale o = Ok ticks /\
    forall (i : nat) (t : lv_tick_draw_t) (l : lv_label_draw_t),
      nth_error ticks i = Some t -> tick_label t = Some l ->
      let size := txt_get_size (style o) (scale_txt l) in
      let c := label_cord l in
      x2 c = to_int16 (x1 c + px size) /\
      y2 c = to_int16 (y1 c + py size) /\
      if scale_hor o then
        x1 c = to_int16 (px (tick_p1 t) - Z.quot (px size) 2) /\
        if align (ext o) =? LV_LINEARSCALE_ALIGN_TOP
        then y1 c = to_int16 (py (tick_p2 t) + pad_bottom (style o))
        else y1 c = to_int16 (py (tick_p1 t) - tick_width t - Z.quot (py size) 8)
      else
        y1 c = to_int16 (py (tick_p1 t) - Z.quot (py size) 2) /\
        if align (ext o) =? LV_LINEARSCALE_ALIGN_LEFT
        then x1 c = px (tick_p2 t)
        else x1 c = to_int16 (px (tick_p1 t) - px size).
Proof.
  intros Hs.
  destruct (draw_scale_ok o Hs) as (ticks & Hd & _ & _ & _).
  exists ticks. split; [exact Hd|].
  destruct (draw_scale_inv o ticks Hd) as (level & _ & Hinv).
  intros i t l Hi Hl. destruct (Hinv i t Hi) as (d & d' & Hb).
  apply draw_tick_inv in Hb. destruct Hb as (_ & _ & _ & _ & _ & _ & Hlab).
  unfold tick_label_of in Hlab. rewrite Hl in Hlab.
  destruct (tick_minor t); [discriminate|].
  apply bind_ok in Hlab. destruct Hlab as (v & _ & Hlab).
  injection Hlab as <-. cbn [scale_txt scale_act label_cord].
  cbv zeta. unfold label_area.
  destruct (scale_hor o).
  - destruct (align (ext o) =? LV_LINEARSCALE_ALIGN_TOP); cbn [x1 x2 y1 y2]; auto.
  - destruct (align (ext o) =? LV_LINEARSCALE_ALIGN_LEFT); cbn [x1 x2 y1 y2]; auto.
Qed.

Lemma labels_sit_beside_ticks_witness :
  exists ticks,
    lv_linearscale_draw_scale sample_scale = Ok ticks /\
    forall (i : nat) (t : lv_tick_draw_t) (l : lv_label_draw_t),
      nth_error ticks i = Some t -> tick_label t = Some l ->
      x2 (label_cord l) = to_int16 (x1 (label_cord l) + 20) /\
      y2 (label_cord l) = to_int16 (y1 (label_cord l) + 10) /\
      x1 (label_cord l) = to_int16 (px (tick_p1 t) - 10) /\
      y1 (label_cord l) = to_int16 (py (tick_p1 t) - tick_width t - 1).
Proof.
  exact (labels_sit_beside_ticks sample_scale sample_scale_safe).
Defined.

(** ** The value and the geometry *)



